(** * scripts/direct-linear-cleanup.py: the bulk ticket-cleanup workflow

    A shallow embedding of the script that cancels a fixed list of Linear
    tickets through the GraphQL API, and the properties of its four
    functions: [get_canceled_state_id], [get_issue_id],
    [update_issue_state] and [main].

    The remote API is a parameter of the development: a function from the
    requests sent so far and the current request to a reply.  Everything the
    script does to the outside (HTTP posts, console lines, sleeps) is
    recorded in a trace, and the three accumulators of [main] live in the
    state next to it, so that they can be inspected also when the run ends
    in an exception. *)

From Stdlib Require Import String Ascii ZArith QArith Bool Arith Lia List.
From Stdlib Require Import SpecFloat.
Import ListNotations.
Local Close Scope Q_scope.
Local Open Scope string_scope.
Local Open Scope list_scope.

(** ** Python values obtained from [response.json()] *)

Module Py.

#[local] Set Warnings "-register-all".

(** What [json.loads] builds: [None], [bool], [int], [float], [str], [list]
    and [dict] (a dict keeps its keys in insertion order, each key once). *)
Inductive value : Type :=
| VNone
| VBool (b : bool)
| VInt (n : Z)
| VFloat (f : spec_float)
| VStr (s : string)
| VList (l : list value)
| VDict (kv : list (string * value)).

(** The exceptions the script can meet.  [RequestException] is raised by
    [requests.post] (no usable HTTP response), [JSONDecodeError] by
    [response.json()], [KeyError] and [TypeError] by subscripting, iterating
    and [in]; [Exception] is the one the script raises itself. *)
Inductive exn : Type :=
| RequestException
| JSONDecodeError
| KeyError (k : string)
| TypeError
| UnboundLocalError
| Exception (msg : string).

Inductive result (A : Type) : Type :=
| Ok (a : A)
| Raise (e : exn).
Arguments Ok {A} a.
Arguments Raise {A} e.

Fixpoint lookup (k : string) (kv : list (string * value)) : option value :=
  match kv with
  | [] => None
  | (k', v) :: rest => if String.eqb k k' then Some v else lookup k rest
  end.

(** [o[k]] for a string key [k]. *)
Definition getitem (o : value) (k : string) : result value :=
  match o with
  | VDict kv =>
      match lookup k kv with
      | Some v => Ok v
      | None => Raise (KeyError k)
      end
  | _ => Raise TypeError
  end.

(** [x == k] for a string literal [k]: a [str] equals only the same [str]. *)
Definition eq_str (x : value) (k : string) : bool :=
  match x with
  | VStr s => String.eqb s k
  | _ => false
  end.

Fixpoint is_prefix (p s : string) : bool :=
  match p, s with
  | EmptyString, _ => true
  | String a p', String b s' => Ascii.eqb a b && is_prefix p' s'
  | String _ _, EmptyString => false
  end.

Fixpoint is_substring (p s : string) : bool :=
  is_prefix p s ||
  match s with
  | EmptyString => false
  | String _ s' => is_substring p s'
  end.

(** [k in o] for a string literal [k]: key membership in a dict, element
    membership in a list, substring test in a str, [TypeError] otherwise. *)
Definition contains (k : string) (o : value) : result bool :=
  match o with
  | VDict kv => Ok (match lookup k kv with Some _ => true | None => false end)
  | VList l => Ok (existsb (fun x => eq_str x k) l)
  | VStr s => Ok (is_substring k s)
  | _ => Raise TypeError
  end.

Definition float_is_zero (f : spec_float) : bool :=
  match f with
  | S754_zero _ => true
  | _ => false
  end.

(** Truth value of an object in [if o:]. *)
Definition truthy (o : value) : bool :=
  match o with
  | VNone => false
  | VBool b => b
  | VInt n => negb (Z.eqb n 0)
  | VFloat f => negb (float_is_zero f)
  | VStr s => negb (String.eqb s "")
  | VList l => match l with [] => false | _ => true end
  | VDict kv => match kv with [] => false | _ => true end
  end.

Fixpoint chars (s : string) : list value :=
  match s with
  | EmptyString => []
  | String a s' => VStr (String a EmptyString) :: chars s'
  end.

(** The items [for x in o] runs through: the elements of a list, the keys
    of a dict, the characters of a str. *)
Definition iter (o : value) : result (list value) :=
  match o with
  | VList l => Ok l
  | VDict kv => Ok (map (fun p => VStr (fst p)) kv)
  | VStr s => Ok (chars s)
  | _ => Raise TypeError
  end.

End Py.
Import Py.

(** ** The outside world *)

(** A formatted string literal: literal text and formatted values. *)
Inductive frag : Type :=
| Lit (s : string)
| Fmt (v : value).

Inductive event : Type :=
| Post (payload : value)     (* requests.post(LINEAR_API_URL, json=payload, headers=headers) *)
| Print (line : list frag)   (* print(f"...") *)
| Sleep (seconds : Q).       (* time.sleep(seconds) *)

(** What the network gives back to one [requests.post]: no response at all,
    or a response whose body parses as JSON or does not. *)
Inductive reply : Type :=
| ConnectionError
| Response (body : option value).

(** The Batch Result: the three accumulators of [main]. *)
Record batch : Type := mkBatch {
  success_count : nat;
  failed_count : nat;
  failed_tickets : list string
}.

(** [trace] is in chronological order; [locals] is [None] until [main]
    has executed its three initialising assignments. *)
Record world : Type := mkWorld {
  trace : list event;
  locals : option batch
}.

Definition world0 : world := mkWorld [] None.

Definition emit (e : event) (w : world) : world :=
  mkWorld (trace w ++ [e]) (locals w).

Fixpoint posts_of (t : list event) : list value :=
  match t with
  | [] => []
  | Post p :: t' => p :: posts_of t'
  | _ :: t' => posts_of t'
  end.

Definition posts (w : world) : list value := posts_of (trace w).

(** ** The monad of the script: state and exceptions *)

Definition M (A : Type) : Type := world -> result A * world.

Definition ret {A} (a : A) : M A := fun w => (Ok a, w).
Definition raise {A} (e : exn) : M A := fun w => (Raise e, w).
Definition bind {A B} (m : M A) (k : A -> M B) : M B :=
  fun w =>
    match m w with
    | (Ok a, w') => k a w'
    | (Raise e, w') => (Raise e, w')
    end.
Definition lift {A} (r : result A) : M A := fun w => (r, w).

Notation "x <- m ;; k" := (bind m (fun x => k))
  (at level 61, m at next level, right associativity).
Notation "m ;;; k" := (bind m (fun _ => k))
  (at level 61, right associativity).

Definition print (line : list frag) : M unit :=
  fun w => (Ok tt, emit (Print line) w).

Definition sleep (seconds : Q) : M unit :=
  fun w => (Ok tt, emit (Sleep seconds) w).

(** [for x in xs: body x] *)
Fixpoint for_each {A} (xs : list A) (body : A -> M unit) : M unit :=
  match xs with
  | [] => ret tt
  | x :: rest => body x ;;; for_each rest body
  end.

(** ** Constants of the script *)

Definition dquote : string := String (ascii_of_nat 34) EmptyString.
Definition nl : string := String (ascii_of_nat 10) EmptyString.

Fixpoint times (s : string) (n : nat) : string :=
  match n with
  | O => ""
  | S n' => s ++ times s n'
  end.

Definition WORKER_TRACE_TICKETS : list string :=
  [ "1M-610"; "1M-611"; "1M-612"; "1M-613"; "1M-614";
    "1M-615"; "1M-616"; "1M-617"; "1M-618"; "1M-619";
    "1M-620"; "1M-488"; "1M-466"; "1M-467" ].

Definition TRACK_TICKETS : list string :=
  [ "1M-573"; "1M-574"; "1M-575"; "1M-576"; "1M-577"; "1M-578" ].

Definition states_query : string :=
  "
    query {
      workflowStates(filter: { name: { eq: " ++ dquote ++ "Canceled" ++ dquote ++ " } }) {
        nodes {
          id
          name
          team {
            key
          }
        }
      }
    }
    ".

Definition issue_query : string :=
  "
    query($identifier: String!) {
      issue(id: $identifier) {
        id
        identifier
        title
        state {
          name
        }
      }
    }
    ".

Definition state_mutation : string :=
  "
    mutation($issueId: String!, $stateId: String!) {
      issueUpdate(id: $issueId, input: { stateId: $stateId }) {
        success
        issue {
          identifier
          state {
            name
          }
        }
      }
    }
    ".

Definition comment_mutation : string :=
  "
        mutation($issueId: String!, $body: String!) {
          commentCreate(input: { issueId: $issueId, body: $body }) {
            success
          }
        }
        ".

(** The [json=] arguments of the four calls. *)
Definition states_payload : value :=
  VDict [("query", VStr states_query)].

Definition issue_payload (ticket_identifier : string) : value :=
  VDict [("query", VStr issue_query);
         ("variables", VDict [("identifier", VStr ticket_identifier)])].

Definition state_payload (issue_id state_id : value) : value :=
  VDict [("query", VStr state_mutation);
         ("variables", VDict [("issueId", issue_id); ("stateId", state_id)])].

Definition comment_payload (issue_id : value) (comment_text : string) : value :=
  VDict [("query", VStr comment_mutation);
         ("variables", VDict [("issueId", issue_id); ("body", VStr comment_text)])].

Definition phase1_comment : string :=
  "Archived as test pollution - cleanup operation 2025-12-04".
Definition phase2_comment : string :=
  "Closed as duplicate tracking ticket - cleanup operation 2025-12-04".

(** ** The script *)

Section Script.

(** The remote API: the reply to a request, given the requests already
    sent in this run (oldest first). *)
Variable api : list value -> value -> reply.

(** [requests.post(LINEAR_API_URL, json=payload, headers=headers)] *)
Definition requests_post (payload : value) : M (option value) :=
  fun w =>
    match api (posts w) payload with
    | ConnectionError => (Raise RequestException, emit (Post payload) w)
    | Response body => (Ok body, emit (Post payload) w)
    end.

(** [response.json()] *)
Definition response_json (response : option value) : M value :=
  match response with
  | Some data => ret data
  | None => raise JSONDecodeError
  end.

(** Lines 50-55: the loop over the nodes of the response, and the [raise]
    that follows it. *)
Fixpoint find_canceled_state (nodes : list value) : M value :=
  match nodes with
  | [] => raise (Exception "Could not find Canceled state for team 1M")
  | state :: rest =>
      team <- lift (getitem state "team") ;;
      key <- lift (getitem team "key") ;;
      if eq_str key "1M" then
        id <- lift (getitem state "id") ;;
        print [Lit "✅ Found Canceled state ID: "; Fmt id] ;;;
        lift (getitem state "id")
      else find_canceled_state rest
  end.

(** Lines 31-55. *)
Definition get_canceled_state_id : M value :=
  response <- requests_post states_payload ;;
  data <- response_json response ;;
  d <- lift (getitem data "data") ;;
  ws <- lift (getitem d "workflowStates") ;;
  nodes <- lift (getitem ws "nodes") ;;
  states <- lift (iter nodes) ;;
  find_canceled_state states.

(** Lines 57-84. *)
Definition get_issue_id (ticket_identifier : string) : M value :=
  response <- requests_post (issue_payload ticket_identifier) ;;
  data <- response_json response ;;
  has_errors <- lift (contains "errors" data) ;;
  if has_errors then
    errors <- lift (getitem data "errors") ;;
    print [Lit "❌ Error getting "; Fmt (VStr ticket_identifier); Lit ": "; Fmt errors] ;;;
    ret VNone
  else
    d <- lift (getitem data "data") ;;
    issue <- lift (getitem d "issue") ;;
    title <- lift (getitem issue "title") ;;
    st <- lift (getitem issue "state") ;;
    state_name <- lift (getitem st "name") ;;
    print [Lit "📋 "; Fmt (VStr ticket_identifier); Lit ": "; Fmt title;
           Lit " (Current state: "; Fmt state_name; Lit ")"] ;;;
    lift (getitem issue "id").

(** Lines 86-140. *)
Definition update_issue_state (issue_id state_id : value) (comment_text : string)
  : M bool :=
  response <- requests_post (state_payload issue_id state_id) ;;
  data <- response_json response ;;
  has_errors <- lift (contains "errors" data) ;;
  if has_errors then
    errors <- lift (getitem data "errors") ;;
    print [Lit "❌ Error updating state: "; Fmt errors] ;;;
    ret false
  else
    d <- lift (getitem data "data") ;;
    iu <- lift (getitem d "issueUpdate") ;;
    success <- lift (getitem iu "success") ;;
    if truthy success then
      d1 <- lift (getitem data "data") ;;
      iu1 <- lift (getitem d1 "issueUpdate") ;;
      issue1 <- lift (getitem iu1 "issue") ;;
      identifier <- lift (getitem issue1 "identifier") ;;
      d2 <- lift (getitem data "data") ;;
      iu2 <- lift (getitem d2 "issueUpdate") ;;
      issue2 <- lift (getitem iu2 "issue") ;;
      st <- lift (getitem issue2 "state") ;;
      state_name <- lift (getitem st "name") ;;
      print [Lit "✅ Updated "; Fmt identifier; Lit " to "; Fmt state_name] ;;;
      comment_response <- requests_post (comment_payload issue_id comment_text) ;;
      comment_data <- response_json comment_response ;;
      cd <- lift (getitem comment_data "data") ;;
      cc <- lift (getitem cd "commentCreate") ;;
      comment_success <- lift (getitem cc "success") ;;
      (if truthy comment_success then print [Lit "  💬 Added comment"] else ret tt) ;;;
      ret true
    else ret false.

(** Lines 150-152:
    [success_count = 0; failed_count = 0; failed_tickets = []] *)
Definition init_batch : M unit :=
  fun w => (Ok tt, mkWorld (trace w) (Some (mkBatch 0 0 []))).

(** [success_count += 1] *)
Definition count_success (b : batch) : batch :=
  mkBatch (success_count b + 1) (failed_count b) (failed_tickets b).

(** [failed_count += 1; failed_tickets.append(ticket)] *)
Definition record_failure (ticket : string) (b : batch) : batch :=
  mkBatch (success_count b) (failed_count b + 1) (failed_tickets b ++ [ticket]).

(** An update of the accumulators; they are unbound before line 150. *)
Definition update_batch (f : batch -> batch) : M unit :=
  fun w =>
    match locals w with
    | Some b => (Ok tt, mkWorld (trace w) (Some (f b)))
    | None => (Raise UnboundLocalError, w)
    end.

(** Reading the accumulators. *)
Definition read_batch : M batch :=
  fun w =>
    match locals w with
    | Some b => (Ok b, w)
    | None => (Raise UnboundLocalError, w)
    end.

(** The body of both [for ticket in ...] loops of [main], lines 160-173
    and 181-194, which differ in the comment text only. *)
Definition process_ticket (canceled_state_id : value) (comment_text : string)
    (ticket : string) : M unit :=
  print [Lit nl; Lit "Processing "; Fmt (VStr ticket); Lit "..."] ;;;
  issue_id <- get_issue_id ticket ;;
  (if truthy issue_id then
     updated <- update_issue_state issue_id canceled_state_id comment_text ;;
     if updated then update_batch count_success
     else update_batch (record_failure ticket)
   else update_batch (record_failure ticket)) ;;;
  sleep (1 # 2)%Q.

(** The three lines that open a phase and the summary. *)
Definition banner (title : string) : M unit :=
  print [Lit (nl ++ times "=" 60)] ;;;
  print [Lit title] ;;;
  print [Lit (times "=" 60)].

(** The end of [main], from its comment [# Summary] on: lines 196-208. *)
Definition summary : M unit :=
  banner "Cleanup Summary" ;;;
  b <- read_batch ;;
  print [Lit "✅ Successfully processed: "; Fmt (VInt (Z.of_nat (success_count b)));
         Lit " tickets"] ;;;
  print [Lit "❌ Failed: "; Fmt (VInt (Z.of_nat (failed_count b))); Lit " tickets"] ;;;
  (match failed_tickets b with
   | [] => ret tt
   | _ :: _ =>
       print [Lit (nl ++ "Failed tickets:")] ;;;
       for_each (failed_tickets b)
         (fun ticket => print [Lit "  - "; Fmt (VStr ticket)])
   end) ;;;
  print [Lit (nl ++ "✅ Cleanup operation complete!")].

(** Lines 142-208. *)
Definition main : M unit :=
  print [Lit (times "=" 60)] ;;;
  print [Lit "Linear Direct Cleanup Script"] ;;;
  print [Lit (times "=" 60)] ;;;
  canceled_state_id <- get_canceled_state_id ;;
  init_batch ;;;
  banner "Phase 1: Archiving WORKER TRACE TEST tickets (14 tickets)" ;;;
  for_each WORKER_TRACE_TICKETS
    (process_ticket canceled_state_id phase1_comment) ;;;
  banner "Phase 2: Closing duplicate Track: tickets (6 tickets)" ;;;
  for_each TRACK_TICKETS
    (process_ticket canceled_state_id phase2_comment) ;;;
  summary.

End Script.

(** ** Observations on a run *)

Fixpoint sleeps_of (t : list event) : nat :=
  match t with
  | [] => 0
  | Sleep _ :: t' => S (sleeps_of t')
  | _ :: t' => sleeps_of t'
  end.

(** The number of completed loop iterations: each one ends in its sleep. *)
Definition tickets_processed (w : world) : nat := sleeps_of (trace w).

Definition query_of (payload : value) : option string :=
  match getitem payload "query" with
  | Ok (VStr q) => Some q
  | _ => None
  end.

Definition variable_of (payload : value) (name : string) : option value :=
  match getitem payload "variables" with
  | Ok vars =>
      match getitem vars name with
      | Ok v => Some v
      | Raise _ => None
      end
  | Raise _ => None
  end.

Definition has_query (q : string) (payload : value) : bool :=
  match query_of payload with
  | Some q' => String.eqb q' q
  | None => false
  end.

(** The ticket a request asks the Ticket Resolver's query about, if it is
    one of those. *)
Definition queried_ticket (payload : value) : option string :=
  if has_query issue_query payload then
    match variable_of payload "identifier" with
    | Some (VStr t) => Some t
    | _ => None
    end
  else None.

Fixpoint tickets_queried_of (ps : list value) : list string :=
  match ps with
  | [] => []
  | p :: ps' =>
      match queried_ticket p with
      | Some t => t :: tickets_queried_of ps'
      | None => tickets_queried_of ps'
      end
  end.

Definition tickets_queried (w : world) : list string :=
  tickets_queried_of (posts w).

(** Requests of the Transition Executor: its two mutations. *)
Definition is_transition (payload : value) : bool :=
  has_query state_mutation payload || has_query comment_mutation payload.

Definition is_comment (payload : value) : bool :=
  has_query comment_mutation payload.

Definition ALL_TICKETS : list string := WORKER_TRACE_TICKETS ++ TRACK_TICKETS.

(** The Batch Result after the tickets [ts] got the verdicts [vs], first
    to last ([true]: success, [false]: failure). *)
Fixpoint tally (ts : list string) (vs : list bool) (b : batch) : batch :=
  match ts, vs with
  | t :: ts', v :: vs' =>
      tally ts' vs' (if v then count_success b else record_failure t b)
  | _, _ => b
  end.

Definition batch0 : batch := mkBatch 0 0 [].

(** ** Vocabulary of the properties *)

(** The issue of a response, [data["data"]["issue"]], where it exists. *)
Definition issue_of (data : value) : option value :=
  match getitem data "data" with
  | Ok d =>
      match getitem d "issue" with
      | Ok issue => Some issue
      | Raise _ => None
      end
  | Raise _ => None
  end.

(** The state mutation's response reports errors. *)
Definition reports_errors (data : value) : Prop :=
  exists kv errors, data = VDict kv /\ lookup "errors" kv = Some errors.

(** The state mutation's response reports [success = false]. *)
Definition reports_no_success (data : value) : Prop :=
  exists kv d iu,
    data = VDict kv /\ lookup "errors" kv = None /\
    lookup "data" kv = Some d /\ getitem d "issueUpdate" = Ok iu /\
    getitem iu "success" = Ok (VBool false).

(** The state mutation went through: its response has no [errors], a truthy
    [success] and the issue's identifier and state name. *)
Definition updated (data identifier state_name : value) : Prop :=
  exists kv d iu success issue st,
    data = VDict kv /\ lookup "errors" kv = None /\
    lookup "data" kv = Some d /\ getitem d "issueUpdate" = Ok iu /\
    getitem iu "success" = Ok success /\ truthy success = true /\
    getitem iu "issue" = Ok issue /\
    getitem issue "identifier" = Ok identifier /\
    getitem issue "state" = Ok st /\ getitem st "name" = Ok state_name.

(** The team key of a node of the response, [state["team"]["key"]]. *)
Definition team_key (state : value) : option value :=
  match getitem state "team" with
  | Ok team =>
      match getitem team "key" with
      | Ok key => Some key
      | Raise _ => None
      end
  | Raise _ => None
  end.

(** The node carries the three fields the query asks for. *)
Definition well_formed_state (state : value) : Prop :=
  (exists key, team_key state = Some key) /\ exists id, getitem state "id" = Ok id.

Definition of_team (team : string) (state : value) : bool :=
  match team_key state with
  | Some key => eq_str key team
  | None => false
  end.

(** The response to the states query lists [nodes]. *)
Definition lists_states (data : value) (nodes : list value) : Prop :=
  exists d ws,
    getitem data "data" = Ok d /\ getitem d "workflowStates" = Ok ws /\
    getitem ws "nodes" = Ok (VList nodes).

Definition not_found : exn :=
  Exception "Could not find Canceled state for team 1M".

(** Tickets counted as success and as failure so far (none before the
    accumulators exist). *)
Definition successes (w : world) : nat :=
  match locals w with
  | Some b => success_count b
  | None => 0
  end.

Definition failures (w : world) : nat :=
  match locals w with
  | Some b => failed_count b
  | None => 0
  end.

(** The requests one ticket can cause: its query, then at most one state
    mutation, then at most one comment mutation. *)
Inductive ticket_posts (ticket : string) : list value -> Prop :=
| query_only :
    ticket_posts ticket [issue_payload ticket]
| query_state issue_id state_id :
    ticket_posts ticket [issue_payload ticket; state_payload issue_id state_id]
| query_state_comment issue_id state_id comment_text :
    ticket_posts ticket
      [issue_payload ticket; state_payload issue_id state_id;
       comment_payload issue_id comment_text].

Definition processing (ticket : string) : event :=
  Print [Lit nl; Lit "Processing "; Fmt (VStr ticket); Lit "..."].

(** The shape of every run of [main]: either the state lookup raised and
    nothing else happened, or the tickets were taken in order, each turn
    giving its ticket one verdict, up to the end of the two lists or to the
    first turn that raised. *)
Inductive run_shape (all : list string) (r : result unit) (w : world) : Prop :=
| aborted_at_lookup e :
    r = Raise e -> locals w = None -> posts w = [states_payload] ->
    tickets_processed w = 0 -> run_shape all r w
| reached_tickets vs groups :
    locals w = Some (tally all vs batch0) ->
    posts w = states_payload :: concat groups ->
    tickets_processed w = length vs ->
    match r with
    | Ok _ => length vs = length all /\ Forall2 ticket_posts all groups
    | Raise _ => length vs < length all /\
                 Forall2 ticket_posts (firstn (S (length vs)) all) groups
    end ->
    run_shape all r w.

Fixpoint distinct (l : list string) : bool :=
  match l with
  | [] => true
  | x :: rest => negb (existsb (String.eqb x) rest) && distinct rest
  end.

(** The world in which [main] asks for the state: its three heading lines
    are printed. *)
Definition started : world :=
  mkWorld [Print [Lit (times "=" 60)];
           Print [Lit "Linear Direct Cleanup Script"];
           Print [Lit (times "=" 60)]] None.

(** What the API answers to the ticket query made in [w0]: an error list. *)
Definition resolution_reports_errors
    (api : list value -> value -> reply) (ticket : string) (w0 : world) : Prop :=
  exists kv errors,
    api (posts w0) (issue_payload ticket) = Response (Some (VDict kv)) /\
    lookup "errors" kv = Some errors.

(** The ticket resolves to an issue id, and the API answers the state
    mutation for it with an error list. *)
Definition transition_reports_errors
    (api : list value -> value -> reply) (state_id : value) (ticket : string)
    (w0 : world) : Prop :=
  exists issue_id w1 kv errors,
    get_issue_id api ticket w0 = (Ok issue_id, w1) /\
    truthy issue_id = true /\
    api (posts w1) (state_payload issue_id state_id) = Response (Some (VDict kv)) /\
    lookup "errors" kv = Some errors.

(** The requests of one turn of a loop run with the state id [state_id]
    and the comment [comment_text]: the mutations carry these two, and the
    id of the issue is the same in both. *)
Inductive turn_posts (state_id : value) (comment_text ticket : string)
  : list value -> Prop :=
| turn_query :
    turn_posts state_id comment_text ticket [issue_payload ticket]
| turn_state issue_id :
    turn_posts state_id comment_text ticket
      [issue_payload ticket; state_payload issue_id state_id]
| turn_comment issue_id :
    turn_posts state_id comment_text ticket
      [issue_payload ticket; state_payload issue_id state_id;
       comment_payload issue_id comment_text].

(** A request that, if it is a state mutation, sets the state [state_id]. *)
Definition sets_state (state_id : value) (payload : value) : Prop :=
  has_query state_mutation payload = true ->
  variable_of payload "stateId" = Some state_id.

(** A request that, if it is a comment mutation, has one of [texts] as its
    body. *)
Definition comments_with (texts : list string) (payload : value) : Prop :=
  has_query comment_mutation payload = true ->
  exists text, In text texts /\ variable_of payload "body" = Some (VStr text).

(** The tickets of [ts] whose verdict in [vs] is a failure, in order. *)
Fixpoint failed_of (ts : list string) (vs : list bool) : list string :=
  match ts, vs with
  | t :: ts', v :: vs' =>
      if v then failed_of ts' vs' else t :: failed_of ts' vs'
  | _, _ => []
  end.

(** The number of successes among the verdicts given to [ts]. *)
Fixpoint succeeded_of (ts : list string) (vs : list bool) : nat :=
  match ts, vs with
  | _ :: ts', v :: vs' =>
      if v then S (succeeded_of ts' vs') else succeeded_of ts' vs'
  | _, _ => 0
  end.

(** What [summary] prints for the accumulators [b]. *)
Definition summary_lines (b : batch) : list event :=
  [Print [Lit (nl ++ times "=" 60)];
   Print [Lit "Cleanup Summary"];
   Print [Lit (times "=" 60)];
   Print [Lit "✅ Successfully processed: ";
          Fmt (VInt (Z.of_nat (success_count b))); Lit " tickets"];
   Print [Lit "❌ Failed: "; Fmt (VInt (Z.of_nat (failed_count b)));
          Lit " tickets"]]
  ++ match failed_tickets b with
     | [] => []
     | _ :: _ =>
         Print [Lit (nl ++ "Failed tickets:")]
         :: map (fun ticket => Print [Lit "  - "; Fmt (VStr ticket)])
              (failed_tickets b)
     end
  ++ [Print [Lit (nl ++ "✅ Cleanup operation complete!")]].

(** The world [w'] is [w] after more events, whose requests all satisfy
    [P]; the accumulators are not looked at. *)
Definition sends_only (P : value -> Prop) (w w' : world) : Prop :=
  exists evs, trace w' = trace w ++ evs /\ Forall P (posts_of evs).

(** The two fields [get_issue_id] prints, [issue['title']] and
    [issue['state']['name']], read in that order. *)
Definition logged_fields (issue : value) : result (value * value) :=
  match getitem issue "title" with
  | Ok title =>
      match getitem issue "state" with
      | Ok st =>
          match getitem st "name" with
          | Ok state_name => Ok (title, state_name)
          | Raise e => Raise e
          end
      | Raise e => Raise e
      end
  | Raise e => Raise e
  end.

(** The exception a reply makes [requests.post] or [response.json()]
    raise, if it does. *)
Definition transport_exn (r : reply) : option exn :=
  match r with
  | ConnectionError => Some RequestException
  | Response None => Some JSONDecodeError
  | Response (Some _) => None
  end.

(** The computation [m] sends only requests that satisfy [P], whatever
    state it starts from and however it ends. *)
Definition only_sends (P : value -> Prop) {A} (m : M A) : Prop :=
  forall w r w', m w = (r, w') -> sends_only P w w'.

(** What is asked of every request of a run whose lookup gave [state_id]. *)
Definition run_request (state_id : value) (payload : value) : Prop :=
  sets_state state_id payload /\
  comments_with [phase1_comment; phase2_comment] payload.

(** The two fields [update_issue_state] prints after a successful state
    mutation, [issue['identifier']] and [issue['state']['name']] of the
    [issueUpdate] object, read in that order. *)
Definition updated_fields (iu : value) : result (value * value) :=
  match getitem iu "issue" with
  | Ok issue =>
      match getitem issue "identifier" with
      | Ok identifier =>
          match getitem iu "issue" with
          | Ok issue' =>
              match getitem issue' "state" with
              | Ok st =>
                  match getitem st "name" with
                  | Ok state_name => Ok (identifier, state_name)
                  | Raise e => Raise e
                  end
              | Raise e => Raise e
              end
          | Raise e => Raise e
          end
      | Raise e => Raise e
      end
  | Raise e => Raise e
  end.

(** A parsed body that is no JSON object. *)
Definition not_an_object (data : value) : Prop :=
  forall kv, data <> VDict kv.

(** ** Sample servers *)

Module Sample.

Definition issue_json (t : string) : value :=
  VDict [("id", VStr ("uuid-" ++ t)); ("identifier", VStr t);
         ("title", VStr "Worker trace test");
         ("state", VDict [("name", VStr "Backlog")])].

Definition data (field : string) (v : value) : value :=
  VDict [("data", VDict [(field, v)])].

Definition state_node (id team : string) : value :=
  VDict [("id", VStr id); ("name", VStr "Canceled");
         ("team", VDict [("key", VStr team)])].

Definition states_ok : value :=
  data "workflowStates"
    (VDict [("nodes", VList [state_node "st-ops" "OPS"; state_node "st-1m" "1M";
                             state_node "st-1m-bis" "1M"])]).

Definition update_ok : value :=
  data "issueUpdate"
    (VDict [("success", VBool true);
            ("issue", VDict [("identifier", VStr "1M-610");
                             ("state", VDict [("name", VStr "Canceled")])])]).

Definition update_refused : value :=
  data "issueUpdate" (VDict [("success", VBool false); ("issue", VNone)]).

Definition comment_ok : value :=
  data "commentCreate" (VDict [("success", VBool true)]).

Definition comment_refused : value :=
  data "commentCreate" (VDict [("success", VBool false)]).

Definition errors_json (msg : string) : value :=
  VDict [("errors", VList [VDict [("message", VStr msg)]])].

(** A server on which every call works. *)
Definition all_ok (history : list value) (payload : value) : reply :=
  if has_query states_query payload then Response (Some states_ok)
  else if has_query issue_query payload then
    match queried_ticket payload with
    | Some t => Response (Some (data "issue" (issue_json t)))
    | None => Response (Some (errors_json "bad request"))
    end
  else if has_query state_mutation payload then Response (Some update_ok)
  else Response (Some comment_ok).

(** The tracker knows none of the tickets: every issue query is answered
    with an error list. *)
Definition no_such_ticket (history : list value) (payload : value) : reply :=
  if has_query issue_query payload
  then Response (Some (errors_json "Entity not found: Issue"))
  else all_ok history payload.

(** Issue queries are answered without error and without issue. *)
Definition null_issue (history : list value) (payload : value) : reply :=
  if has_query issue_query payload
  then Response (Some (data "issue" VNone))
  else all_ok history payload.

(** State mutations are refused with [success: false]. *)
Definition update_refusing (history : list value) (payload : value) : reply :=
  if has_query state_mutation payload then Response (Some update_refused)
  else all_ok history payload.

(** State mutations are answered with an error list. *)
Definition update_failing (history : list value) (payload : value) : reply :=
  if has_query state_mutation payload
  then Response (Some (errors_json "Rate limit exceeded"))
  else all_ok history payload.

(** Comment mutations are answered with an error list. *)
Definition comment_failing (history : list value) (payload : value) : reply :=
  if has_query comment_mutation payload
  then Response (Some (errors_json "Rate limit exceeded"))
  else all_ok history payload.

(** Comment mutations are refused with [success: false]. *)
Definition comment_refusing (history : list value) (payload : value) : reply :=
  if has_query comment_mutation payload then Response (Some comment_refused)
  else all_ok history payload.

(** The network goes down after the state lookup. *)
Definition down_after_lookup (history : list value) (payload : value) : reply :=
  if has_query states_query payload then Response (Some states_ok)
  else ConnectionError.

(** The team 1M has no state called Canceled. *)
Definition no_team_state (history : list value) (payload : value) : reply :=
  if has_query states_query payload
  then Response (Some (data "workflowStates"
         (VDict [("nodes", VList [state_node "st-ops" "OPS";
                                  state_node "st-web" "WEB"])])))
  else all_ok history payload.

(** Issues are found, with an empty string as their id. *)
Definition empty_id (history : list value) (payload : value) : reply :=
  if has_query issue_query payload then
    Response (Some (data "issue"
      (VDict [("id", VStr ""); ("identifier", VStr "1M-610");
              ("title", VStr "Worker trace test");
              ("state", VDict [("name", VStr "Backlog")])])))
  else all_ok history payload.

(** Issues are found, with their id but without title. *)
Definition untitled_issue (history : list value) (payload : value) : reply :=
  if has_query issue_query payload then
    Response (Some (data "issue"
      (VDict [("id", VStr "uuid-1M-610");
              ("state", VDict [("name", VStr "Backlog")])])))
  else all_ok history payload.

(** The state lookup is answered with an error list. *)
Definition lookup_failing (history : list value) (payload : value) : reply :=
  if has_query states_query payload
  then Response (Some (errors_json "Authentication required"))
  else all_ok history payload.

(** A state without team is listed before the state of team 1M. *)
Definition teamless_state (history : list value) (payload : value) : reply :=
  if has_query states_query payload
  then Response (Some (data "workflowStates"
         (VDict [("nodes",
                  VList [state_node "st-ops" "OPS";
                         VDict [("id", VStr "st-orphan");
                                ("name", VStr "Canceled"); ("team", VNone)];
                         state_node "st-1m" "1M"])])))
  else all_ok history payload.

(** The network goes down when the comment is sent. *)
Definition comment_down (history : list value) (payload : value) : reply :=
  if has_query comment_mutation payload then ConnectionError
  else all_ok history payload.

(** State mutations get a body that is not JSON (an HTML error page). *)
Definition update_not_json (history : list value) (payload : value) : reply :=
  if has_query state_mutation payload then Response None
  else all_ok history payload.

(** Issue queries get a body that is not JSON. *)
Definition issue_not_json (history : list value) (payload : value) : reply :=
  if has_query issue_query payload then Response None
  else all_ok history payload.

(** State mutations succeed without giving the issue back. *)
Definition update_without_issue (history : list value) (payload : value) : reply :=
  if has_query state_mutation payload
  then Response (Some (data "issueUpdate"
         (VDict [("success", VBool true); ("issue", VNone)])))
  else all_ok history payload.

(** An issue with title and state whose id is null, in a response without
    errors. *)
Definition null_id_body : value :=
  data "issue"
    (VDict [("id", VNone); ("identifier", VStr "1M-610");
            ("title", VStr "Worker trace test");
            ("state", VDict [("name", VStr "Backlog")])]).

(** Issue queries are answered with [null_id_body]. *)
Definition null_id (history : list value) (payload : value) : reply :=
  if has_query issue_query payload then Response (Some null_id_body)
  else all_ok history payload.


(** Every body is the JSON value [null]. *)
Definition null_body (history : list value) (payload : value) : reply :=
  Response (Some VNone).

End Sample.

(** ** Reasoning about traces *)

(** [log w evs]: the world [w] after the events [evs], accumulators
    untouched. *)
Definition log (w : world) (evs : list event) : world :=
  mkWorld (trace w ++ evs) (locals w).

Lemma emit_as_log e w : emit e w = log w [e].
Proof. reflexivity. Qed.

Lemma log_log w a b : log (log w a) b = log w (a ++ b).
Proof. unfold log; simpl. now rewrite app_assoc. Qed.

Lemma log_nil w : log w [] = w.
Proof. destruct w; unfold log; simpl. now rewrite app_nil_r. Qed.

Lemma posts_of_app a b : posts_of (a ++ b) = posts_of a ++ posts_of b.
Proof.
  induction a as [|e a IH]; simpl; [reflexivity|].
  destruct e; simpl; now rewrite IH.
Qed.

Lemma sleeps_of_app a b : sleeps_of (a ++ b) = sleeps_of a + sleeps_of b.
Proof.
  induction a as [|e a IH]; simpl; [reflexivity|].
  destruct e; simpl; now rewrite IH.
Qed.

Lemma tickets_queried_of_app a b :
  tickets_queried_of (a ++ b) = tickets_queried_of a ++ tickets_queried_of b.
Proof.
  induction a as [|p a IH]; simpl; [reflexivity|].
  destruct (queried_ticket p); simpl; now rewrite IH.
Qed.

Lemma posts_log w evs : posts (log w evs) = posts w ++ posts_of evs.
Proof. unfold posts, log; simpl. apply posts_of_app. Qed.

Lemma tickets_processed_log w evs :
  tickets_processed (log w evs) = tickets_processed w + sleeps_of evs.
Proof. unfold tickets_processed, log; simpl. apply sleeps_of_app. Qed.

Lemma tickets_queried_log w evs :
  tickets_queried (log w evs)
  = tickets_queried w ++ tickets_queried_of (posts_of evs).
Proof.
  unfold tickets_queried. rewrite posts_log. apply tickets_queried_of_app.
Qed.

Lemma queried_ticket_issue t : queried_ticket (issue_payload t) = Some t.
Proof. reflexivity. Qed.

Lemma queried_ticket_state i s : queried_ticket (state_payload i s) = None.
Proof. reflexivity. Qed.

Lemma queried_ticket_comment i c : queried_ticket (comment_payload i c) = None.
Proof. reflexivity. Qed.

Lemma is_transition_issue t : is_transition (issue_payload t) = false.
Proof. reflexivity. Qed.

(** Unfold one monadic function and split on every test it makes. *)
Ltac split_match :=
  match goal with
  | |- context [match ?x with _ => _ end] =>
      lazymatch x with
      | context [match _ with _ => _ end] => fail
      | _ => destruct x eqn:?; cbn beta iota
      end
  end.

Ltac unfold_monad :=
  unfold response_json, bind, lift, ret, raise, print, sleep in *.

Ltac normalise_log :=
  rewrite ?emit_as_log, ?log_log; simpl app.

Section Frames.

Variable api : list value -> value -> reply.

(** Whatever the API answers, [get_issue_id] sends exactly its one query,
    sleeps never and leaves the accumulators alone. *)
Lemma get_issue_id_frame t w :
  exists evs,
    snd (get_issue_id api t w) = log w evs /\
    posts_of evs = [issue_payload t] /\ sleeps_of evs = 0.
Proof.
  unfold get_issue_id, requests_post. unfold_monad.
  repeat split_match; simpl; normalise_log;
    eexists; (split; [reflexivity|split; reflexivity]).
Qed.

(** [update_issue_state] sends its state mutation and at most one comment
    mutation after it. *)
Lemma update_issue_state_frame i sid c w :
  exists evs,
    snd (update_issue_state api i sid c w) = log w evs /\
    (posts_of evs = [state_payload i sid] \/
     posts_of evs = [state_payload i sid; comment_payload i c]) /\
    sleeps_of evs = 0.
Proof.
  unfold update_issue_state, requests_post. unfold_monad.
  repeat split_match; simpl; normalise_log;
    eexists; (split; [reflexivity|split; [simpl; auto|reflexivity]]).
Qed.

Lemma find_canceled_state_frame nodes w :
  exists evs,
    snd (find_canceled_state nodes w) = log w evs /\ posts_of evs = [] /\
    sleeps_of evs = 0.
Proof.
  induction nodes as [|state rest IH]; simpl.
  - exists []. now rewrite log_nil.
  - unfold_monad.
    repeat split_match; simpl; normalise_log;
      first [ exact IH
            | exists []; rewrite log_nil; repeat split; reflexivity
            | eexists; (split; [reflexivity|split; reflexivity]) ].
Qed.

Lemma get_canceled_state_id_frame w :
  exists evs,
    snd (get_canceled_state_id api w) = log w evs /\
    posts_of evs = [states_payload] /\ sleeps_of evs = 0.
Proof.
  unfold get_canceled_state_id, requests_post. unfold_monad.
  repeat split_match; simpl; normalise_log;
    try (eexists; (split; [reflexivity|split; reflexivity])).
  match goal with
  | |- context [find_canceled_state ?ns ?w0] =>
      destruct (find_canceled_state_frame ns w0) as (evs & E & P & S)
  end.
  rewrite E. normalise_log. eexists. split; [reflexivity|].
  simpl. rewrite P, S. split; reflexivity.
Qed.

End Frames.

(** ** The Ticket Resolver: [get_issue_id] *)

Section TicketResolver.

Variable api : list value -> value -> reply.

Lemma get_issue_id_on_errors ticket w kv errors :
  api (posts w) (issue_payload ticket) = Response (Some (VDict kv)) ->
  lookup "errors" kv = Some errors ->
  get_issue_id api ticket w
  = (Ok VNone,
     log w [Post (issue_payload ticket);
            Print [Lit "❌ Error getting "; Fmt (VStr ticket); Lit ": ";
                   Fmt errors]]).
Proof.
  intros Hapi Herr.
  unfold get_issue_id, requests_post. unfold_monad.
  rewrite Hapi. simpl. rewrite Herr. normalise_log. reflexivity.
Qed.

Lemma get_issue_id_without_errors ticket w kv :
  api (posts w) (issue_payload ticket) = Response (Some (VDict kv)) ->
  lookup "errors" kv = None ->
  fst (get_issue_id api ticket w) = Ok VNone ->
  exists issue, issue_of (VDict kv) = Some issue /\ getitem issue "id" = Ok VNone.
Proof.
  intros Hapi Herr.
  unfold get_issue_id, requests_post, issue_of. unfold_monad.
  rewrite Hapi. simpl. rewrite Herr.
  repeat split_match; simpl; try discriminate.
  intros E. eexists. split; [reflexivity|]. congruence.
Qed.

Lemma get_issue_id_on_null_issue ticket w kv :
  api (posts w) (issue_payload ticket) = Response (Some (VDict kv)) ->
  lookup "errors" kv = None ->
  issue_of (VDict kv) = Some VNone ->
  get_issue_id api ticket w
  = (Raise TypeError, log w [Post (issue_payload ticket)]).
Proof.
  intros Hapi Herr Hissue.
  unfold issue_of in Hissue.
  destruct (getitem (VDict kv) "data") as [d|] eqn:Hd; [|discriminate].
  destruct (getitem d "issue") as [issue|] eqn:Hi; [|discriminate].
  injection Hissue as ->.
  unfold get_issue_id, requests_post. unfold_monad.
  rewrite Hapi. cbn beta iota. unfold contains. rewrite Herr, Hd, Hi.
  normalise_log. reflexivity.
Qed.

Lemma get_issue_id_on_issue ticket w kv issue title state_name id :
  api (posts w) (issue_payload ticket) = Response (Some (VDict kv)) ->
  lookup "errors" kv = None ->
  issue_of (VDict kv) = Some issue ->
  logged_fields issue = Ok (title, state_name) ->
  getitem issue "id" = Ok id ->
  fst (get_issue_id api ticket w) = Ok id.
Proof.
  intros Hapi Herr Hissue Hlog Hid.
  unfold issue_of in Hissue. unfold logged_fields in Hlog.
  destruct (getitem (VDict kv) "data") as [d|] eqn:Hd; [|discriminate].
  destruct (getitem d "issue") as [issue'|] eqn:Hi; [|discriminate].
  injection Hissue as ->.
  destruct (getitem issue "title") as [title'|] eqn:Ht; [|discriminate].
  destruct (getitem issue "state") as [st|] eqn:Hs; [|discriminate].
  destruct (getitem st "name") as [name|] eqn:Hn; [|discriminate].
  unfold get_issue_id, requests_post. unfold_monad.
  rewrite Hapi. cbn beta iota. unfold contains. rewrite Herr, Hd, Hi, Ht, Hs, Hn.
  cbn [fst]. exact Hid.
Qed.

(** What a [None] without [errors] comes from: an issue whose title and
    state name could be read and whose own id is null. *)
Lemma get_issue_id_none_without_errors ticket w kv :
  api (posts w) (issue_payload ticket) = Response (Some (VDict kv)) ->
  lookup "errors" kv = None ->
  fst (get_issue_id api ticket w) = Ok VNone ->
  exists issue title state_name,
    issue_of (VDict kv) = Some issue /\
    logged_fields issue = Ok (title, state_name) /\
    getitem issue "id" = Ok VNone.
Proof.
  intros Hapi Herr.
  unfold get_issue_id, requests_post. unfold_monad.
  rewrite Hapi. cbn beta iota. unfold contains. rewrite Herr. cbn beta iota.
  destruct (getitem (VDict kv) "data") as [d|] eqn:Hd; [|discriminate].
  destruct (getitem d "issue") as [issue|] eqn:Hi; [|discriminate].
  destruct (getitem issue "title") as [title|] eqn:Ht; [|discriminate].
  destruct (getitem issue "state") as [st|] eqn:Hs; [|discriminate].
  destruct (getitem st "name") as [name|] eqn:Hn; [|discriminate].
  cbn [fst]. intros Hid. exists issue, title, name.
  unfold issue_of, logged_fields. rewrite Hd, Hi, Ht, Hs, Hn.
  split; [reflexivity|]. split; [reflexivity|exact Hid].
Qed.

(** A body that is no object never gives a result. *)
Lemma get_issue_id_not_object ticket w data :
  api (posts w) (issue_payload ticket) = Response (Some data) ->
  (forall kv, data <> VDict kv) ->
  fst (get_issue_id api ticket w) = Raise TypeError.
Proof.
  intros Hapi Hdata.
  unfold get_issue_id, requests_post. unfold_monad. rewrite Hapi.
  destruct data; simpl; try reflexivity.
  - now destruct (is_substring "errors" s).
  - now destruct (existsb (fun x => eq_str x "errors") l).
  - now destruct (Hdata kv).
Qed.

End TicketResolver.

(** C5. When the API's answer to the ticket query reports errors (the
    response object has an [errors] key, as for a ticket that does not
    exist), [get_issue_id] returns [None] and raises nothing: it has sent
    its one query and printed the error. *)
Theorem get_issue_id_errors_return_none :
  forall api ticket w kv errors,
    api (posts w) (issue_payload ticket) = Response (Some (VDict kv)) ->
    lookup "errors" kv = Some errors ->
    exists line,
      get_issue_id api ticket w
      = (Ok VNone, log w [Post (issue_payload ticket); Print line]).
Proof.
  intros api ticket w kv errors Hapi Herr.
  eexists. exact (get_issue_id_on_errors api ticket w kv errors Hapi Herr).
Qed.

Lemma get_issue_id_errors_return_none_witness :
  fst (get_issue_id Sample.no_such_ticket "1M-610" world0) = Ok VNone.
Proof.
  destruct (get_issue_id_errors_return_none Sample.no_such_ticket "1M-610"
              world0 _ _ eq_refl eq_refl) as [line E].
  rewrite E. reflexivity.
Defined.

(** C9, the claim as it stands, fails: a response without an [errors] key
    whose issue has a title, a state name and the id [null] makes
    [get_issue_id] return [None], the issue's own id. *)
Lemma null_id_returns_none_without_errors :
  Sample.null_id [] (issue_payload "1M-610")
  = Response (Some Sample.null_id_body) /\
  contains "errors" Sample.null_id_body = Ok false /\
  fst (get_issue_id Sample.null_id "1M-610" world0) = Ok VNone.
Proof. vm_compute. repeat split; reflexivity. Qed.

(** C9, amended. Whatever the parsed response is, [get_issue_id] returns
    [None] in two cases and no other: the response is an object with an
    [errors] key; or it is an object without one whose issue has a title and
    a state name and has the id [null], which is returned as it is.  For a
    response object without an [errors] key whose issue field is null, the
    function does not return [None]: subscripting the null issue raises
    [TypeError], after the one request and with nothing printed. *)
Theorem get_issue_id_none_cases :
  forall api ticket w data,
    api (posts w) (issue_payload ticket) = Response (Some data) ->
    (fst (get_issue_id api ticket w) = Ok VNone <->
     exists kv,
       data = VDict kv /\
       (lookup "errors" kv <> None \/
        (lookup "errors" kv = None /\
         exists issue title state_name,
           issue_of data = Some issue /\
           logged_fields issue = Ok (title, state_name) /\
           getitem issue "id" = Ok VNone))) /\
    (forall kv,
       data = VDict kv ->
       lookup "errors" kv = None ->
       issue_of data = Some VNone ->
       get_issue_id api ticket w
       = (Raise TypeError, log w [Post (issue_payload ticket)])).
Proof.
  intros api ticket w data Hapi. split; [split|].
  - intros Hnone.
    assert (Hobject : exists kv, data = VDict kv).
    { destruct data; try (now eexists);
        rewrite (get_issue_id_not_object api ticket w _ Hapi) in Hnone;
        try discriminate; intros kv; discriminate. }
    destruct Hobject as [kv ->]. exists kv. split; [reflexivity|].
    destruct (lookup "errors" kv) as [errors|] eqn:Herr; [left; discriminate|].
    right. split; [reflexivity|].
    exact (get_issue_id_none_without_errors api ticket w kv Hapi Herr Hnone).
  - intros (kv & -> & [Herr | (Herr & issue & title & name & Hi & Hl & Hid)]).
    + destruct (lookup "errors" kv) as [errors|] eqn:E; [|congruence].
      now rewrite (get_issue_id_on_errors api ticket w kv errors Hapi E).
    + exact (get_issue_id_on_issue api ticket w kv issue title name VNone
               Hapi Herr Hi Hl Hid).
  - intros kv -> Herr Hissue.
    exact (get_issue_id_on_null_issue api ticket w kv Hapi Herr Hissue).
Qed.

Lemma get_issue_id_none_cases_witness :
  fst (get_issue_id Sample.null_issue "1M-610" world0) = Raise TypeError /\
  fst (get_issue_id Sample.null_id "1M-610" world0) = Ok VNone /\
  fst (get_issue_id Sample.no_such_ticket "1M-610" world0) = Ok VNone.
Proof.
  split; [|split].
  - now rewrite (proj2 (get_issue_id_none_cases Sample.null_issue "1M-610"
                          world0 _ eq_refl) _ eq_refl eq_refl eq_refl).
  - apply (proj2 (proj1 (get_issue_id_none_cases Sample.null_id "1M-610"
                           world0 _ eq_refl))).
    eexists. split; [reflexivity|]. right. split; [reflexivity|].
    do 3 eexists. repeat split; reflexivity.
  - apply (proj2 (proj1 (get_issue_id_none_cases Sample.no_such_ticket "1M-610"
                           world0 _ eq_refl))).
    eexists. split; [reflexivity|]. left. discriminate.
Defined.

(** ** The Transition Executor: [update_issue_state] *)

Section TransitionExecutor.

Variable api : list value -> value -> reply.

Lemma update_issue_state_on_errors issue_id state_id comment_text w kv errors :
  api (posts w) (state_payload issue_id state_id) = Response (Some (VDict kv)) ->
  lookup "errors" kv = Some errors ->
  update_issue_state api issue_id state_id comment_text w
  = (Ok false,
     log w [Post (state_payload issue_id state_id);
            Print [Lit "❌ Error updating state: "; Fmt errors]]).
Proof.
  intros Hapi Herr.
  unfold update_issue_state, requests_post. unfold_monad.
  rewrite Hapi. simpl. rewrite Herr. normalise_log. reflexivity.
Qed.

Lemma update_issue_state_not_truthy issue_id state_id comment_text w kv d iu success :
  api (posts w) (state_payload issue_id state_id) = Response (Some (VDict kv)) ->
  lookup "errors" kv = None ->
  lookup "data" kv = Some d ->
  getitem d "issueUpdate" = Ok iu ->
  getitem iu "success" = Ok success ->
  truthy success = false ->
  update_issue_state api issue_id state_id comment_text w
  = (Ok false, log w [Post (state_payload issue_id state_id)]).
Proof.
  intros Hapi Herr Hd Hiu Hs Ht.
  unfold update_issue_state, requests_post. unfold_monad.
  rewrite Hapi. simpl. rewrite Herr, Hd, Hiu, Hs, Ht. reflexivity.
Qed.

(** After a successful state mutation, a comment response that carries
    [data.commentCreate.success] gives [True] whatever that flag says; the
    flag only decides whether "Added comment" is printed. *)
Lemma update_issue_state_comment_flag
    issue_id state_id comment_text w data identifier state_name
    comment_data cd cc flag :
  let w1 := log w [Post (state_payload issue_id state_id);
                   Print [Lit "✅ Updated "; Fmt identifier; Lit " to ";
                          Fmt state_name]] in
  api (posts w) (state_payload issue_id state_id) = Response (Some data) ->
  updated data identifier state_name ->
  api (posts w1) (comment_payload issue_id comment_text)
  = Response (Some comment_data) ->
  getitem comment_data "data" = Ok cd ->
  getitem cd "commentCreate" = Ok cc ->
  getitem cc "success" = Ok flag ->
  update_issue_state api issue_id state_id comment_text w
  = (Ok true,
     log w1 (Post (comment_payload issue_id comment_text)
             :: if truthy flag then [Print [Lit "  💬 Added comment"]] else [])).
Proof.
  intros w1 Hapi (kv & d & iu & success & issue & st & -> & Herr & Hd & Hiu
                  & Hs & Ht & Hissue & Hident & Hst & Hname) Hcapi Hcd Hcc Hflag.
  unfold update_issue_state, requests_post. unfold_monad.
  rewrite Hapi. simpl. rewrite Herr, Hd, Hiu, Hs, Ht, Hissue, Hident, Hst, Hname.
  normalise_log. fold w1. rewrite Hcapi, Hcd, Hcc, Hflag.
  destruct (truthy flag); unfold w1; normalise_log; reflexivity.
Qed.

(** After a successful state mutation, a comment response without a [data]
    key makes the function raise [KeyError]. *)
Lemma update_issue_state_comment_errors
    issue_id state_id comment_text w data identifier state_name ckv :
  let w1 := log w [Post (state_payload issue_id state_id);
                   Print [Lit "✅ Updated "; Fmt identifier; Lit " to ";
                          Fmt state_name]] in
  api (posts w) (state_payload issue_id state_id) = Response (Some data) ->
  updated data identifier state_name ->
  api (posts w1) (comment_payload issue_id comment_text)
  = Response (Some (VDict ckv)) ->
  lookup "data" ckv = None ->
  update_issue_state api issue_id state_id comment_text w
  = (Raise (KeyError "data"),
     log w1 [Post (comment_payload issue_id comment_text)]).
Proof.
  intros w1 Hapi (kv & d & iu & success & issue & st & -> & Herr & Hd & Hiu
                  & Hs & Ht & Hissue & Hident & Hst & Hname) Hcapi Hcd.
  unfold update_issue_state, requests_post. unfold_monad.
  rewrite Hapi. simpl. rewrite Herr, Hd, Hiu, Hs, Ht, Hissue, Hident, Hst, Hname.
  normalise_log. fold w1. rewrite Hcapi. simpl. rewrite Hcd.
  unfold w1. normalise_log. reflexivity.
Qed.

End TransitionExecutor.

(** C4. When the response to the state mutation has an [errors] key or
    reports [success = false], [update_issue_state] returns [False] and the
    state mutation is the only request it has sent: no comment mutation. *)
Theorem update_issue_state_failure_skips_comment :
  forall api issue_id state_id comment_text w data,
    api (posts w) (state_payload issue_id state_id) = Response (Some data) ->
    reports_errors data \/ reports_no_success data ->
    exists evs,
      update_issue_state api issue_id state_id comment_text w
      = (Ok false, log w evs) /\
      posts_of evs = [state_payload issue_id state_id] /\
      existsb is_comment (posts_of evs) = false.
Proof.
  intros api issue_id state_id comment_text w data Hapi
    [(kv & errors & -> & Herr)|(kv & d & iu & -> & Herr & Hd & Hiu & Hs)].
  - eexists. split; [|split].
    + exact (update_issue_state_on_errors api _ _ _ _ _ _ Hapi Herr).
    + reflexivity.
    + reflexivity.
  - eexists. split; [|split].
    + exact (update_issue_state_not_truthy api _ _ _ _ _ _ _ _
               Hapi Herr Hd Hiu Hs eq_refl).
    + reflexivity.
    + reflexivity.
Qed.

Lemma update_issue_state_failure_skips_comment_witness :
  fst (update_issue_state Sample.update_refusing (VStr "uuid-1M-610")
         (VStr "st-1m") phase1_comment world0) = Ok false /\
  fst (update_issue_state Sample.update_failing (VStr "uuid-1M-610")
         (VStr "st-1m") phase1_comment world0) = Ok false.
Proof.
  split.
  - destruct (update_issue_state_failure_skips_comment Sample.update_refusing
                (VStr "uuid-1M-610") (VStr "st-1m") phase1_comment world0 _
                eq_refl) as (evs & E & _).
    + right. unfold reports_no_success. do 3 eexists.
      repeat split; reflexivity.
    + now rewrite E.
  - destruct (update_issue_state_failure_skips_comment Sample.update_failing
                (VStr "uuid-1M-610") (VStr "st-1m") phase1_comment world0 _
                eq_refl) as (evs & E & _).
    + left. unfold reports_errors. do 2 eexists. split; reflexivity.
    + now rewrite E.
Defined.

(** C3. The state mutation succeeds and the comment mutation is answered
    with an error list, [{"errors": [...]}]: [update_issue_state] does not
    return [True], it raises [KeyError('data')] when it reads the comment
    response, after the two requests; and [main] ends in that exception at
    the first ticket, which is counted neither as success nor as failure. *)
Theorem update_issue_state_comment_error_raises :
  update_issue_state Sample.comment_failing (VStr "uuid-1M-610") (VStr "st-1m")
    phase1_comment world0
  = (Raise (KeyError "data"),
     log world0
       [Post (state_payload (VStr "uuid-1M-610") (VStr "st-1m"));
        Print [Lit "✅ Updated "; Fmt (VStr "1M-610"); Lit " to ";
               Fmt (VStr "Canceled")];
        Post (comment_payload (VStr "uuid-1M-610") phase1_comment)]) /\
  fst (main Sample.comment_failing world0) = Raise (KeyError "data") /\
  locals (snd (main Sample.comment_failing world0)) = Some batch0 /\
  tickets_queried (snd (main Sample.comment_failing world0)) = ["1M-610"].
Proof. vm_compute. repeat split; reflexivity. Qed.

(** ** The State Resolver: [get_canceled_state_id] *)

Section StateResolver.

Variable api : list value -> value -> reply.

Lemma get_canceled_state_id_nodes w data nodes :
  api (posts w) states_payload = Response (Some data) ->
  lists_states data nodes ->
  get_canceled_state_id api w
  = find_canceled_state nodes (log w [Post states_payload]).
Proof.
  intros Hapi (d & ws & Hd & Hws & Hnodes).
  unfold get_canceled_state_id, requests_post. unfold_monad.
  rewrite Hapi. cbn beta iota. rewrite Hd, Hws, Hnodes. reflexivity.
Qed.

Lemma find_canceled_state_skip state rest w :
  well_formed_state state ->
  of_team "1M" state = false ->
  find_canceled_state (state :: rest) w = find_canceled_state rest w.
Proof.
  intros [[key Hkey] _]. unfold of_team, team_key in *. simpl. unfold_monad.
  destruct (getitem state "team") as [team|]; [|discriminate].
  destruct (getitem team "key") as [key'|]; [|discriminate].
  injection Hkey as ->. intros ->. reflexivity.
Qed.

Lemma find_canceled_state_hit state rest w id :
  of_team "1M" state = true ->
  getitem state "id" = Ok id ->
  find_canceled_state (state :: rest) w
  = (Ok id, log w [Print [Lit "✅ Found Canceled state ID: "; Fmt id]]).
Proof.
  unfold of_team, team_key. simpl. unfold_monad.
  destruct (getitem state "team") as [team|]; [|discriminate].
  destruct (getitem team "key") as [key|]; [|discriminate].
  intros -> ->. reflexivity.
Qed.



Lemma find_canceled_state_first pre state post w id :
  Forall well_formed_state pre ->
  Forall (fun s => of_team "1M" s = false) pre ->
  of_team "1M" state = true ->
  getitem state "id" = Ok id ->
  find_canceled_state (pre ++ state :: post) w
  = (Ok id, log w [Print [Lit "✅ Found Canceled state ID: "; Fmt id]]).
Proof.
  intros Hwf Hpre Hteam Hid.
  induction pre as [|s pre IH]; simpl app.
  - now apply find_canceled_state_hit.
  - inversion Hwf; subst. inversion Hpre; subst.
    rewrite find_canceled_state_skip by assumption. now apply IH.
Qed.

End StateResolver.



(** C10. When several listed states belong to team "1M", the one returned
    is the first in the order of the response: the states before it are
    well formed and of other teams, and whatever follows it is not looked
    at. *)
Theorem get_canceled_state_id_first_match :
  forall api w data pre state post id,
    api (posts w) states_payload = Response (Some data) ->
    lists_states data (pre ++ state :: post) ->
    Forall well_formed_state pre ->
    Forall (fun s => of_team "1M" s = false) pre ->
    of_team "1M" state = true ->
    getitem state "id" = Ok id ->
    get_canceled_state_id api w
    = (Ok id,
       log w [Post states_payload;
              Print [Lit "✅ Found Canceled state ID: "; Fmt id]]).
Proof.
  intros api w data pre state post id Hapi Hlist Hwf Hpre Hteam Hid.
  rewrite (get_canceled_state_id_nodes api w data _ Hapi Hlist).
  rewrite (find_canceled_state_first pre state post _ id Hwf Hpre Hteam Hid).
  normalise_log. reflexivity.
Qed.

Lemma get_canceled_state_id_first_match_witness :
  fst (get_canceled_state_id Sample.all_ok world0) = Ok (VStr "st-1m") /\
  of_team "1M" (Sample.state_node "st-1m-bis" "1M") = true.
Proof.
  split; [|reflexivity].
  rewrite (get_canceled_state_id_first_match Sample.all_ok world0
             Sample.states_ok
             [Sample.state_node "st-ops" "OPS"] (Sample.state_node "st-1m" "1M")
             [Sample.state_node "st-1m-bis" "1M"] (VStr "st-1m") eq_refl).
  - reflexivity.
  - do 2 eexists. repeat split; reflexivity.
  - repeat constructor; eexists; reflexivity.
  - repeat constructor.
  - reflexivity.
  - reflexivity.
Defined.

(** ** The Batch Orchestrator: [main] *)



Lemma tally_failed_grows ts : forall vs b t,
  In t (failed_tickets b) -> In t (failed_tickets (tally ts vs b)).
Proof.
  induction ts as [|t' ts IH]; intros vs b t Hin; simpl; [exact Hin|].
  destruct vs as [|v vs]; simpl; [exact Hin|].
  apply IH. destruct v; simpl; [exact Hin|].
  apply in_or_app. now left.
Qed.

Lemma tally_failed_count_grows ts : forall vs b,
  failed_count b <= failed_count (tally ts vs b).
Proof.
  induction ts as [|t' ts IH]; intros vs b; simpl; [lia|].
  destruct vs as [|v vs]; simpl; [lia|].
  etransitivity; [|apply IH]. destruct v; simpl; lia.
Qed.

Lemma tally_app ts1 ts2 : forall vs1 vs2 b,
  length vs1 = length ts1 ->
  tally (ts1 ++ ts2) (vs1 ++ vs2) b = tally ts2 vs2 (tally ts1 vs1 b).
Proof.
  induction ts1 as [|t ts1 IH]; intros vs1 vs2 b Hlen.
  - destruct vs1; [|discriminate]. simpl. now destruct ts2.
  - destruct vs1 as [|v vs1]; [discriminate|]. simpl. apply IH.
    simpl in Hlen. lia.
Qed.

Lemma tally_short ts1 ts2 : forall vs b,
  length vs <= length ts1 ->
  tally (ts1 ++ ts2) vs b = tally ts1 vs b.
Proof.
  induction ts1 as [|t ts1 IH]; intros vs b Hlen.
  - destruct vs; [|simpl in Hlen; lia]. simpl. now destruct ts2.
  - destruct vs as [|v vs]; [reflexivity|]. simpl. apply IH.
    simpl in Hlen. lia.
Qed.


Section Orchestrator.

Variable api : list value -> value -> reply.

(** One turn of the loop, from a state where the accumulators hold [b]. *)
Lemma process_ticket_spec canceled_state_id comment_text ticket tr b r w' :
  process_ticket api canceled_state_id comment_text ticket (mkWorld tr (Some b))
  = (r, w') ->
  exists evs,
    trace w' = tr ++ evs /\
    ticket_posts ticket (posts_of evs) /\
    match r with
    | Ok _ =>
        sleeps_of evs = 1 /\
        exists verdict : bool,
          locals w'
          = Some (if verdict then count_success b else record_failure ticket b)
    | Raise _ => sleeps_of evs = 0 /\ locals w' = Some b
    end.
Proof.
  unfold process_ticket. unfold bind at 1. unfold print at 1. unfold bind at 1.
  cbn beta iota.
  set (w0 := emit _ _).
  destruct (get_issue_id_frame api ticket w0) as (evs1 & E1 & P1 & S1).
  destruct (get_issue_id api ticket w0) as [[issue_id|e] w1]; simpl in E1;
    subst w1.
  2:{ intros E; injection E as <- <-.
      exists (processing ticket :: evs1). simpl.
      rewrite <- app_assoc, P1, S1. repeat split. constructor. }
  unfold bind at 1.
  destruct (truthy issue_id).
  - unfold bind at 1.
    destruct (update_issue_state_frame api issue_id canceled_state_id
                comment_text (log w0 evs1)) as (evs2 & E2 & P2 & S2).
    destruct (update_issue_state api issue_id canceled_state_id comment_text
                (log w0 evs1)) as [[updated|e] w2]; simpl in E2; subst w2.
    + assert (Hposts : ticket_posts ticket
                         (posts_of (processing ticket :: evs1 ++ evs2
                                    ++ [Sleep (1 # 2)%Q]))).
      { simpl. rewrite !posts_of_app, P1. simpl. rewrite app_nil_r.
        destruct P2 as [-> | ->]; constructor. }
      assert (Hsleeps : sleeps_of (processing ticket :: evs1 ++ evs2
                                   ++ [Sleep (1 # 2)%Q]) = 1).
      { simpl. rewrite !sleeps_of_app, S1, S2. reflexivity. }
      destruct updated; intros E; injection E as <- <-;
        exists (processing ticket :: evs1 ++ evs2 ++ [Sleep (1 # 2)%Q]);
        (split; [simpl; rewrite <- !app_assoc; reflexivity|]);
        (split; [exact Hposts|]); (split; [exact Hsleeps|]).
      * now exists true.
      * now exists false.
    + intros E; injection E as <- <-.
      exists (processing ticket :: evs1 ++ evs2).
      split; [simpl; rewrite <- !app_assoc; reflexivity|].
      simpl. rewrite !posts_of_app, !sleeps_of_app, P1, S1, S2.
      split; [destruct P2 as [-> | ->]; constructor|]. split; reflexivity.
  - intros E; injection E as <- <-.
    exists (processing ticket :: evs1 ++ [Sleep (1 # 2)%Q]).
    split; [simpl; rewrite <- !app_assoc; reflexivity|].
    simpl. rewrite !posts_of_app, !sleeps_of_app, P1, S1.
    split; [constructor|]. split; [reflexivity|]. now exists false.
Qed.

(** One phase: the tickets get their verdicts in order, one turn each,
    until the list is exhausted or a turn raises. *)
Lemma for_each_ticket_spec canceled_state_id comment_text ts :
  forall tr b r w',
    for_each ts (process_ticket api canceled_state_id comment_text)
      (mkWorld tr (Some b)) = (r, w') ->
    exists vs groups evs,
      w' = mkWorld (tr ++ evs) (Some (tally ts vs b)) /\
      sleeps_of evs = length vs /\
      posts_of evs = concat groups /\
      match r with
      | Ok _ => length vs = length ts /\ Forall2 ticket_posts ts groups
      | Raise _ =>
          length vs < length ts /\
          Forall2 ticket_posts (firstn (S (length vs)) ts) groups
      end.
Proof.
  induction ts as [|t ts IH]; intros tr b r w'; simpl.
  - intros E; injection E as <- <-. exists [], [], []. rewrite app_nil_r.
    repeat split. constructor.
  - unfold bind at 1.
    destruct (process_ticket api canceled_state_id comment_text t
                (mkWorld tr (Some b))) as [[[]|e] w1] eqn:E1;
      destruct (process_ticket_spec _ _ _ _ _ _ _ E1) as (evs1 & T1 & P1 & R1);
      destruct w1 as [tr1 l1]; simpl in T1, R1; subst tr1.
    + destruct R1 as (S1 & verdict & ->). intros E.
      destruct (IH _ _ _ _ E) as (vs & groups & evs & -> & S & P & R).
      exists (verdict :: vs), (posts_of evs1 :: groups), (evs1 ++ evs).
      rewrite app_assoc, posts_of_app, sleeps_of_app, S1, S, P.
      repeat split.
      destruct r as [u|e]; simpl.
      * destruct R as [Hlen HF]. split; [now rewrite Hlen|]. now constructor.
      * destruct R as [Hlen HF]. split; [lia|]. now constructor.
    + destruct R1 as (S1 & ->). intros E; injection E as <- <-.
      exists [], [posts_of evs1], evs1. simpl. rewrite app_nil_r.
      repeat split; try assumption; try lia.
      repeat constructor. exact P1.
Qed.

Lemma bind_print {A} line (k : M A) w :
  (print line ;;; k) w = k (mkWorld (trace w ++ [Print line]) (locals w)).
Proof. reflexivity. Qed.

Lemma bind_banner {A} title (k : M A) w :
  (banner title ;;; k) w
  = k (mkWorld (trace w ++ [Print [Lit (nl ++ times "=" 60)];
                            Print [Lit title];
                            Print [Lit (times "=" 60)]]) (locals w)).
Proof.
  unfold banner, bind, print, emit. cbn [trace locals].
  now rewrite <- !app_assoc.
Qed.

Lemma for_each_print (f : string -> list frag) xs w :
  for_each xs (fun x => print (f x)) w
  = (Ok tt, log w (map (fun x => Print (f x)) xs)).
Proof.
  revert w. induction xs as [|x xs IH]; intros w; simpl.
  - now rewrite log_nil.
  - rewrite bind_print, IH. unfold log. cbn [trace locals].
    now rewrite <- app_assoc.
Qed.

Lemma posts_of_prints (f : string -> list frag) xs :
  posts_of (map (fun x => Print (f x)) xs) = [].
Proof. induction xs; simpl; auto. Qed.

Lemma sleeps_of_prints (f : string -> list frag) xs :
  sleeps_of (map (fun x => Print (f x)) xs) = 0.
Proof. induction xs; simpl; auto. Qed.

(** The summary only prints, and it cannot fail once the accumulators
    exist. *)
Lemma summary_spec tr b :
  exists evs,
    summary (mkWorld tr (Some b)) = (Ok tt, mkWorld (tr ++ evs) (Some b)) /\
    posts_of evs = [] /\ sleeps_of evs = 0.
Proof.
  unfold summary. rewrite bind_banner. cbn [trace locals].
  unfold bind at 1. unfold read_batch at 1. cbn [trace locals].
  rewrite !bind_print. cbn [trace locals].
  unfold bind at 1.
  destruct (failed_tickets b) as [|t ts] eqn:Hf.
  - unfold ret, print, emit. cbn [trace locals]. rewrite <- !app_assoc.
    eexists. split; [reflexivity|]. split; reflexivity.
  - rewrite bind_print, for_each_print. unfold log, print, emit.
    cbn [trace locals]. rewrite <- !app_assoc.
    eexists. split; [reflexivity|].
    rewrite !posts_of_app, !sleeps_of_app,
      (posts_of_prints (fun x => [Lit "  - "; Fmt (VStr x)])),
      (sleeps_of_prints (fun x => [Lit "  - "; Fmt (VStr x)])).
    split; reflexivity.
Qed.

Lemma firstn_app_short {A} (l1 l2 : list A) n :
  n <= length l1 -> firstn n (l1 ++ l2) = firstn n l1.
Proof.
  intros H. rewrite firstn_app.
  replace (n - length l1) with 0 by lia. simpl. apply app_nil_r.
Qed.

Lemma main_run_shape r w :
  main api world0 = (r, w) -> run_shape ALL_TICKETS r w.
Proof.
  unfold main, ALL_TICKETS.
  generalize WORKER_TRACE_TICKETS, TRACK_TICKETS. intros ts1 ts2.
  rewrite !bind_print. cbn [trace locals world0 app].
  set (w0 := mkWorld _ None).
  unfold bind at 1.
  destruct (get_canceled_state_id_frame api w0) as (evs0 & E0 & P0 & S0).
  destruct (get_canceled_state_id api w0) as [[sid|e] w1]; simpl in E0; subst w1.
  2:{ intros E; injection E as <- <-.
      eapply aborted_at_lookup; try reflexivity.
      - unfold posts, log, w0. cbn [trace]. now rewrite posts_of_app, P0.
      - unfold tickets_processed, log, w0. cbn [trace].
        now rewrite sleeps_of_app, S0. }
  unfold bind at 1. unfold init_batch at 1. cbn [trace locals log w0].
  change (mkBatch 0 0 []) with batch0.
  rewrite bind_banner. cbn [trace locals].
  set (tr1 := _ ++ [_; _; _]).
  assert (Ptr1 : posts_of tr1 = [states_payload]).
  { unfold tr1. simpl. now rewrite !posts_of_app, P0. }
  assert (Str1 : sleeps_of tr1 = 0).
  { unfold tr1. simpl. now rewrite !sleeps_of_app, S0. }
  clearbody tr1. clear w0 evs0 P0 S0.
  unfold bind at 1.
  destruct (for_each ts1 _ _) as [[[]|e] w1] eqn:E1;
    apply for_each_ticket_spec in E1;
    destruct E1 as (vs1 & groups1 & evs1 & -> & S1 & P1 & R1).
  2:{ intros E; injection E as <- <-. destruct R1 as [Hlen HF].
      apply (reached_tickets _ _ _ vs1 groups1).
      - cbn [locals]. now rewrite tally_short by lia.
      - unfold posts. cbn [trace]. now rewrite posts_of_app, Ptr1, P1.
      - unfold tickets_processed. cbn [trace].
        rewrite sleeps_of_app, Str1, S1. reflexivity.
      - split.
        + rewrite length_app. lia.
        + now rewrite firstn_app_short by lia. }
  destruct R1 as [Hlen1 HF1].
  rewrite bind_banner. cbn [trace locals].
  set (tr2 := _ ++ [_; _; _]).
  assert (Ptr2 : posts_of tr2 = states_payload :: concat groups1).
  { unfold tr2. now rewrite !posts_of_app, Ptr1, P1, app_nil_r. }
  assert (Str2 : sleeps_of tr2 = length vs1).
  { unfold tr2. rewrite !sleeps_of_app, Str1, S1. simpl. lia. }
  clearbody tr2. clear tr1 Ptr1 Str1 evs1 S1 P1.
  unfold bind at 1.
  destruct (for_each ts2 _ _) as [[[]|e] w2] eqn:E2;
    apply for_each_ticket_spec in E2;
    destruct E2 as (vs2 & groups2 & evs2 & -> & S2 & P2 & R2);
    destruct R2 as [Hlen2 HF2].
  - destruct (summary_spec (tr2 ++ evs2)
                (tally ts2 vs2 (tally ts1 vs1 batch0)))
      as (evs3 & E3 & P3 & S3).
    rewrite E3. intros E; injection E as <- <-.
    apply (reached_tickets _ _ _ (vs1 ++ vs2) (groups1 ++ groups2)).
    + cbn [locals]. now rewrite tally_app.
    + unfold posts. cbn [trace].
      now rewrite !posts_of_app, Ptr2, P2, P3, app_nil_r, concat_app.
    + unfold tickets_processed. cbn [trace].
      rewrite !sleeps_of_app, Str2, S2, S3, length_app. lia.
    + split.
      * rewrite !length_app. lia.
      * now apply Forall2_app.
  - intros E; injection E as <- <-.
    apply (reached_tickets _ _ _ (vs1 ++ vs2) (groups1 ++ groups2)).
    + cbn [locals]. now rewrite tally_app.
    + unfold posts. cbn [trace].
      now rewrite !posts_of_app, Ptr2, P2, concat_app.
    + unfold tickets_processed. cbn [trace].
      rewrite !sleeps_of_app, Str2, S2, length_app. lia.
    + split.
      * rewrite !length_app. lia.
      * replace (S (length (vs1 ++ vs2)))
          with (length ts1 + S (length vs2))
          by (rewrite length_app; lia).
        rewrite firstn_app_2. now apply Forall2_app.
Qed.

End Orchestrator.

Lemma distinct_NoDup l : distinct l = true -> NoDup l.
Proof.
  induction l as [|x rest IH]; simpl; [constructor|].
  intros H. apply andb_prop in H as [Hx Hrest].
  constructor; [|now apply IH].
  intros Hin. apply negb_true_iff in Hx.
  assert (existsb (String.eqb x) rest = true); [|congruence].
  apply existsb_exists. exists x. split; [exact Hin|apply String.eqb_refl].
Qed.

Lemma ALL_TICKETS_NoDup : NoDup ALL_TICKETS.
Proof. apply distinct_NoDup. vm_compute. reflexivity. Qed.



Lemma firstn_length_firstn {A} n : forall l : list A,
  firstn (length (firstn n l)) l = firstn n l.
Proof.
  induction n as [|n IH]; intros [|y l]; simpl; try reflexivity.
  now rewrite IH.
Qed.

Lemma Forall2_same_length {A B} (R : A -> B -> Prop) l1 l2 :
  Forall2 R l1 l2 -> length l1 = length l2.
Proof. induction 1; simpl; congruence. Qed.

Lemma main_unresolved api e w :
  get_canceled_state_id api started = (Raise e, w) ->
  main api world0 = (Raise e, w).
Proof.
  intros H. unfold main. rewrite !bind_print. cbn [trace locals world0 app].
  fold started. unfold bind at 1. now rewrite H.
Qed.

(** C7. When [get_canceled_state_id] raises (no state of team "1M" in the
    response, or any other failure of the lookup), [main] ends in that
    exception having sent the state lookup and nothing else: no ticket is
    queried, no mutation is sent, no turn of the loops is made, and the
    accumulators have not even been created, so that nothing has been
    counted as success or as failure. *)
Theorem main_aborts_when_state_unresolved :
  forall api e,
    fst (get_canceled_state_id api started) = Raise e ->
    let w := snd (main api world0) in
    fst (main api world0) = Raise e /\
    posts w = [states_payload] /\
    tickets_queried w = [] /\
    existsb is_transition (posts w) = false /\
    tickets_processed w = 0 /\
    locals w = None /\
    successes w = 0 /\ failures w = 0.
Proof.
  intros api e H. cbv zeta.
  destruct (get_canceled_state_id_frame api started) as (evs & E & P & S).
  destruct (get_canceled_state_id api started) as [r w] eqn:Hrun.
  cbn [fst snd] in *. subst r w.
  rewrite (main_unresolved api e _ Hrun). cbn [fst snd].
  assert (Hposts : posts (log started evs) = [states_payload]).
  { rewrite posts_log, P. reflexivity. }
  unfold tickets_queried, successes, failures.
  rewrite Hposts, tickets_processed_log, S.
  repeat split.
Qed.

Lemma main_aborts_when_state_unresolved_witness :
  fst (main Sample.no_team_state world0) = Raise not_found /\
  successes (snd (main Sample.no_team_state world0)) = 0 /\
  failures (snd (main Sample.no_team_state world0)) = 0.
Proof.
  destruct (main_aborts_when_state_unresolved Sample.no_team_state not_found
              eq_refl) as (Hr & _ & _ & _ & _ & _ & Hs & Hf).
  repeat split; assumption.
Defined.

Section Failures.

Variable api : list value -> value -> reply.

(** A turn in which the resolver gives a falsy id: the ticket is recorded
    as failed and only the ticket query has been sent. *)
Lemma process_ticket_unresolved canceled_state_id comment_text ticket tr b issue_id w1 :
  get_issue_id api ticket (emit (processing ticket) (mkWorld tr (Some b)))
  = (Ok issue_id, w1) ->
  truthy issue_id = false ->
  exists evs,
    process_ticket api canceled_state_id comment_text ticket (mkWorld tr (Some b))
    = (Ok tt, mkWorld (tr ++ evs) (Some (record_failure ticket b))) /\
    posts_of evs = [issue_payload ticket].
Proof.
  intros Hget Hfalsy.
  destruct (get_issue_id_frame api ticket
              (emit (processing ticket) (mkWorld tr (Some b))))
    as (evs1 & E1 & P1 & S1).
  rewrite Hget in E1. cbn [snd] in E1. subst w1.
  exists (processing ticket :: evs1 ++ [Sleep (1 # 2)%Q]).
  split.
  - unfold process_ticket. rewrite bind_print. cbn [trace locals].
    unfold bind at 1. unfold processing, emit in Hget. cbn [trace locals] in Hget.
    rewrite Hget. unfold bind at 1. rewrite Hfalsy.
    unfold update_batch, sleep, emit, log. cbn [trace locals].
    now rewrite <- !app_assoc.
  - simpl. now rewrite posts_of_app, P1.
Qed.

(** A turn in which the ticket resolves and the state mutation is answered
    with an error list. *)
Lemma process_ticket_update_errors canceled_state_id comment_text ticket tr b
    issue_id w1 kv errors :
  get_issue_id api ticket (emit (processing ticket) (mkWorld tr (Some b)))
  = (Ok issue_id, w1) ->
  truthy issue_id = true ->
  api (posts w1) (state_payload issue_id canceled_state_id)
  = Response (Some (VDict kv)) ->
  lookup "errors" kv = Some errors ->
  exists evs,
    process_ticket api canceled_state_id comment_text ticket (mkWorld tr (Some b))
    = (Ok tt, mkWorld (tr ++ evs) (Some (record_failure ticket b))).
Proof.
  intros Hget Htruthy Hapi Herr.
  destruct (get_issue_id_frame api ticket
              (emit (processing ticket) (mkWorld tr (Some b))))
    as (evs1 & E1 & P1 & S1).
  rewrite Hget in E1. cbn [snd] in E1. subst w1.
  eexists.
  unfold process_ticket. rewrite bind_print. cbn [trace locals].
  unfold bind at 1. unfold processing, emit in Hget, Hapi.
  cbn [trace locals] in Hget, Hapi.
  rewrite Hget. unfold bind at 1. rewrite Htruthy. unfold bind at 1.
  rewrite (update_issue_state_on_errors api _ _ _ _ _ _ Hapi Herr).
  unfold update_batch, sleep, emit, log. cbn [trace locals].
  rewrite <- !app_assoc. reflexivity.
Qed.

End Failures.

(** C6. When [get_issue_id] returns [None] for a ticket, the turn ends
    normally with the ticket appended to the failed list and the failure
    count one higher, the ticket query being the only request of the turn
    (no state mutation, no comment mutation); and whatever happens to the
    tickets after it, the ticket is still in the failed list at the end of
    the loop. *)
Theorem unresolved_ticket_is_failure :
  forall api canceled_state_id comment_text ticket rest tr b w1,
    get_issue_id api ticket (emit (processing ticket) (mkWorld tr (Some b)))
    = (Ok VNone, w1) ->
    exists evs,
      process_ticket api canceled_state_id comment_text ticket (mkWorld tr (Some b))
      = (Ok tt, mkWorld (tr ++ evs) (Some (record_failure ticket b))) /\
      posts_of evs = [issue_payload ticket] /\
      existsb is_transition (posts_of evs) = false /\
      failed_tickets (record_failure ticket b) = failed_tickets b ++ [ticket] /\
      failed_count (record_failure ticket b) = failed_count b + 1 /\
      forall r w',
        for_each (ticket :: rest)
          (process_ticket api canceled_state_id comment_text)
          (mkWorld tr (Some b)) = (r, w') ->
        exists b',
          locals w' = Some b' /\ In ticket (failed_tickets b') /\
          failed_count b < failed_count b'.
Proof.
  intros api sid c t rest tr b w1 Hget.
  destruct (process_ticket_unresolved api sid c t tr b VNone w1 Hget eq_refl)
    as (evs & Hturn & Hposts).
  exists evs. rewrite Hposts.
  repeat split; try reflexivity; try assumption.
  intros r w' Hloop. cbn [for_each] in Hloop. unfold bind at 1 in Hloop.
  rewrite Hturn in Hloop.
  apply for_each_ticket_spec in Hloop
    as (vs & groups & evs' & -> & _).
  eexists. split; [reflexivity|]. split.
  - apply tally_failed_grows. simpl. apply in_or_app. right. now left.
  - eapply Nat.lt_le_trans; [|apply tally_failed_count_grows]. simpl. lia.
Qed.

Lemma unresolved_ticket_is_failure_witness :
  exists w,
    process_ticket Sample.no_such_ticket (VStr "st-1m") phase1_comment "1M-610"
      (mkWorld [] (Some batch0)) = (Ok tt, w) /\
    locals w = Some (mkBatch 0 1 ["1M-610"]).
Proof.
  destruct (unresolved_ticket_is_failure Sample.no_such_ticket (VStr "st-1m")
              phase1_comment "1M-610" [] [] batch0 _ eq_refl)
    as (evs & Hturn & _).
  eexists. split; [exact Hturn|reflexivity].
Defined.

(** C2, the claim as it stands, fails: with a network that goes down after
    the state lookup, the first ticket's query raises, the exception leaves
    [process_ticket] and [main], no failure is recorded and no other ticket
    is taken up. *)
Lemma transport_failure_ends_run :
  process_ticket Sample.down_after_lookup (VStr "st-1m") phase1_comment "1M-610"
    (mkWorld [] (Some batch0))
  = (Raise RequestException,
     mkWorld [processing "1M-610"; Post (issue_payload "1M-610")] (Some batch0)) /\
  fst (main Sample.down_after_lookup world0) = Raise RequestException /\
  locals (snd (main Sample.down_after_lookup world0)) = Some batch0 /\
  tickets_queried (snd (main Sample.down_after_lookup world0)) = ["1M-610"] /\
  tickets_processed (snd (main Sample.down_after_lookup world0)) = 0.
Proof. vm_compute. repeat split; reflexivity. Qed.

(** C2, amended. An error reported by the API, that is an [errors] key in
    the response to the ticket's query or, once the ticket is resolved, in
    the response to its state mutation, makes the turn end normally with
    the ticket recorded as failed, and the loop goes on with the next
    ticket from there. *)
Theorem api_errors_become_failures :
  forall api canceled_state_id comment_text ticket rest tr b,
    resolution_reports_errors api ticket
      (emit (processing ticket) (mkWorld tr (Some b))) \/
    transition_reports_errors api canceled_state_id ticket
      (emit (processing ticket) (mkWorld tr (Some b))) ->
    exists evs,
      process_ticket api canceled_state_id comment_text ticket (mkWorld tr (Some b))
      = (Ok tt, mkWorld (tr ++ evs) (Some (record_failure ticket b))) /\
      for_each (ticket :: rest)
        (process_ticket api canceled_state_id comment_text) (mkWorld tr (Some b))
      = for_each rest (process_ticket api canceled_state_id comment_text)
          (mkWorld (tr ++ evs) (Some (record_failure ticket b))).
Proof.
  intros api sid c t rest tr b H.
  set (w0 := emit (processing t) (mkWorld tr (Some b))) in H.
  assert (Hturn : exists evs,
            process_ticket api sid c t (mkWorld tr (Some b))
            = (Ok tt, mkWorld (tr ++ evs) (Some (record_failure t b)))).
  { destruct H as [(kv & errors & Hapi & Herr)
                  |(issue_id & w1 & kv & errors & Hget & Ht & Hapi & Herr)].
    - pose proof (get_issue_id_on_errors api t w0 kv errors Hapi Herr) as Hget.
      destruct (process_ticket_unresolved api sid c t tr b VNone _ Hget eq_refl)
        as (evs & Hturn & _).
      now exists evs.
    - exact (process_ticket_update_errors api sid c t tr b issue_id w1 kv errors
               Hget Ht Hapi Herr). }
  destruct Hturn as [evs Hturn]. exists evs. split; [exact Hturn|].
  cbn [for_each]. unfold bind at 1. now rewrite Hturn.
Qed.

Lemma api_errors_become_failures_witness :
  (exists w,
     process_ticket Sample.no_such_ticket (VStr "st-1m") phase1_comment "1M-610"
       (mkWorld [] (Some batch0)) = (Ok tt, w) /\
     locals w = Some (mkBatch 0 1 ["1M-610"])) /\
  (exists w,
     process_ticket Sample.update_failing (VStr "st-1m") phase1_comment "1M-610"
       (mkWorld [] (Some batch0)) = (Ok tt, w) /\
     locals w = Some (mkBatch 0 1 ["1M-610"])).
Proof.
  split.
  - destruct (api_errors_become_failures Sample.no_such_ticket (VStr "st-1m")
                phase1_comment "1M-610" [] [] batch0) as (evs & Hturn & _).
    + left. do 2 eexists. split; reflexivity.
    + eexists. split; [exact Hturn|reflexivity].
  - destruct (api_errors_become_failures Sample.update_failing (VStr "st-1m")
                phase1_comment "1M-610" [] [] batch0) as (evs & Hturn & _).
    + right. do 4 eexists. split; [reflexivity|]. split; [reflexivity|].
      split; reflexivity.
    + eexists. split; [exact Hturn|reflexivity].
Defined.

(** ** Sample runs *)

Example all_tickets_succeed :
  fst (main Sample.all_ok world0) = Ok tt /\
  locals (snd (main Sample.all_ok world0)) = Some (mkBatch 20 0 []).
Proof. vm_compute. split; reflexivity. Qed.

Example all_tickets_unknown :
  fst (main Sample.no_such_ticket world0) = Ok tt /\
  locals (snd (main Sample.no_such_ticket world0))
  = Some (mkBatch 0 20 ALL_TICKETS).
Proof. vm_compute. split; reflexivity. Qed.

Example comment_refused_still_success :
  update_issue_state Sample.comment_refusing (VStr "uuid-1M-610") (VStr "st-1m")
    phase1_comment world0
  = (Ok true,
     log world0
       [Post (state_payload (VStr "uuid-1M-610") (VStr "st-1m"));
        Print [Lit "✅ Updated "; Fmt (VStr "1M-610"); Lit " to ";
               Fmt (VStr "Canceled")];
        Post (comment_payload (VStr "uuid-1M-610") phase1_comment)]).
Proof. vm_compute. reflexivity. Qed.

(** ** Further properties of the Ticket Resolver *)

(** X1. For a response without [errors] whose issue has a title, a state
    name and an id, [get_issue_id] returns that id, whatever kind of value
    it is, after its one request and one line with the ticket, the title
    and the state name. *)
Theorem get_issue_id_returns_issue_id :
  forall api ticket w kv issue title state_name id,
    api (posts w) (issue_payload ticket) = Response (Some (VDict kv)) ->
    lookup "errors" kv = None ->
    issue_of (VDict kv) = Some issue ->
    logged_fields issue = Ok (title, state_name) ->
    getitem issue "id" = Ok id ->
    get_issue_id api ticket w
    = (Ok id,
       log w [Post (issue_payload ticket);
              Print [Lit "📋 "; Fmt (VStr ticket); Lit ": "; Fmt title;
                     Lit " (Current state: "; Fmt state_name; Lit ")"]]).
Proof.
  intros api ticket w kv issue title state_name id Hapi Herr Hissue Hlog Hid.
  unfold issue_of in Hissue. unfold logged_fields in Hlog.
  destruct (getitem (VDict kv) "data") as [d|] eqn:Hd; [|discriminate].
  destruct (getitem d "issue") as [issue'|] eqn:Hi; [|discriminate].
  injection Hissue as ->.
  destruct (getitem issue "title") as [title'|] eqn:Ht; [|discriminate].
  destruct (getitem issue "state") as [st|] eqn:Hs; [|discriminate].
  destruct (getitem st "name") as [name|] eqn:Hn; [|discriminate].
  injection Hlog as -> ->.
  unfold get_issue_id, requests_post. unfold_monad.
  rewrite Hapi. cbn beta iota. unfold contains. rewrite Herr, Hd, Hi, Ht, Hs, Hn.
  normalise_log. rewrite Hid. reflexivity.
Qed.

Lemma get_issue_id_returns_issue_id_witness :
  fst (get_issue_id Sample.all_ok "1M-610" world0) = Ok (VStr "uuid-1M-610") /\
  fst (get_issue_id Sample.empty_id "1M-610" world0) = Ok (VStr "").
Proof.
  split.
  - now rewrite (get_issue_id_returns_issue_id Sample.all_ok "1M-610" world0
                   _ _ _ _ (VStr "uuid-1M-610") eq_refl eq_refl eq_refl eq_refl
                   eq_refl).
  - now rewrite (get_issue_id_returns_issue_id Sample.empty_id "1M-610" world0
                   _ _ _ _ (VStr "") eq_refl eq_refl eq_refl eq_refl eq_refl).
Defined.

(** X2. The title and the state name are read before the id: when the
    issue of the response lacks one of them, [get_issue_id] raises the
    exception of that subscript ([KeyError], or [TypeError] for a state
    that is no object) and prints nothing, whether the issue has an id or
    not. *)
Theorem get_issue_id_logs_before_id :
  forall api ticket w kv issue e,
    api (posts w) (issue_payload ticket) = Response (Some (VDict kv)) ->
    lookup "errors" kv = None ->
    issue_of (VDict kv) = Some issue ->
    logged_fields issue = Raise e ->
    get_issue_id api ticket w = (Raise e, log w [Post (issue_payload ticket)]).
Proof.
  intros api ticket w kv issue e Hapi Herr Hissue Hlog.
  unfold issue_of in Hissue. unfold logged_fields in Hlog.
  destruct (getitem (VDict kv) "data") as [d|] eqn:Hd; [|discriminate].
  destruct (getitem d "issue") as [issue'|] eqn:Hi; [|discriminate].
  injection Hissue as ->.
  unfold get_issue_id, requests_post. unfold_monad.
  rewrite Hapi. cbn beta iota. unfold contains. rewrite Herr, Hd, Hi.
  destruct (getitem issue "title") as [title|] eqn:Ht.
  - destruct (getitem issue "state") as [st|] eqn:Hs.
    + destruct (getitem st "name") as [name|] eqn:Hn; [discriminate|].
      injection Hlog as ->. normalise_log. reflexivity.
    + injection Hlog as ->. normalise_log. reflexivity.
  - injection Hlog as ->. normalise_log. reflexivity.
Qed.

Lemma get_issue_id_logs_before_id_witness :
  fst (get_issue_id Sample.untitled_issue "1M-610" world0)
  = Raise (KeyError "title").
Proof.
  now rewrite (get_issue_id_logs_before_id Sample.untitled_issue "1M-610" world0
                 _ _ (KeyError "title") eq_refl eq_refl eq_refl eq_refl).
Defined.

(** X3. When the network call fails, with no response or with a body that
    is not JSON, [get_issue_id] raises the transport exception
    ([RequestException], [JSONDecodeError]); it does not return [None], and
    nothing is printed. *)
Theorem get_issue_id_transport_failure :
  forall api ticket w e,
    transport_exn (api (posts w) (issue_payload ticket)) = Some e ->
    get_issue_id api ticket w = (Raise e, log w [Post (issue_payload ticket)]).
Proof.
  intros api ticket w e H.
  unfold get_issue_id, requests_post. unfold_monad.
  destruct (api (posts w) (issue_payload ticket)) as [|[data|]];
    simpl in H; try discriminate; injection H as <-;
    normalise_log; reflexivity.
Qed.

Lemma get_issue_id_transport_failure_witness :
  fst (get_issue_id Sample.down_after_lookup "1M-610" world0)
  = Raise RequestException /\
  fst (get_issue_id Sample.issue_not_json "1M-610" world0)
  = Raise JSONDecodeError.
Proof.
  split.
  - now rewrite (get_issue_id_transport_failure Sample.down_after_lookup
                   "1M-610" world0 RequestException eq_refl).
  - now rewrite (get_issue_id_transport_failure Sample.issue_not_json
                   "1M-610" world0 JSONDecodeError eq_refl).
Defined.

(** ** Further properties of the Transition Executor *)

(** X4. After a state mutation that went through, a comment response that
    carries [data.commentCreate.success] makes [update_issue_state] return
    [True] whatever the flag is; "Added comment" is printed exactly when the
    flag is truthy, and a comment that was refused leaves no line at all. *)
Theorem update_issue_state_true_whatever_flag :
  forall api issue_id state_id comment_text w data identifier state_name
         comment_data cd cc flag,
    api (posts w) (state_payload issue_id state_id) = Response (Some data) ->
    updated data identifier state_name ->
    api (posts w ++ [state_payload issue_id state_id])
      (comment_payload issue_id comment_text)
    = Response (Some comment_data) ->
    getitem comment_data "data" = Ok cd ->
    getitem cd "commentCreate" = Ok cc ->
    getitem cc "success" = Ok flag ->
    update_issue_state api issue_id state_id comment_text w
    = (Ok true,
       log w ([Post (state_payload issue_id state_id);
               Print [Lit "✅ Updated "; Fmt identifier; Lit " to ";
                      Fmt state_name];
               Post (comment_payload issue_id comment_text)]
              ++ if truthy flag then [Print [Lit "  💬 Added comment"]] else [])).
Proof.
  intros api issue_id state_id comment_text w data identifier state_name
    comment_data cd cc flag Hapi Hupd Hcapi Hcd Hcc Hflag.
  rewrite (update_issue_state_comment_flag api issue_id state_id comment_text w
             data identifier state_name comment_data cd cc flag Hapi Hupd).
  - rewrite log_log. reflexivity.
  - rewrite posts_log. exact Hcapi.
  - exact Hcd.
  - exact Hcc.
  - exact Hflag.
Qed.

Lemma update_issue_state_true_whatever_flag_witness :
  fst (update_issue_state Sample.all_ok (VStr "uuid-1M-610") (VStr "st-1m")
         phase1_comment world0) = Ok true /\
  fst (update_issue_state Sample.comment_refusing (VStr "uuid-1M-610")
         (VStr "st-1m") phase1_comment world0) = Ok true.
Proof.
  assert (Hupd : updated Sample.update_ok (VStr "1M-610") (VStr "Canceled")).
  { unfold updated. do 6 eexists. repeat split; reflexivity. }
  split.
  - now rewrite (update_issue_state_true_whatever_flag Sample.all_ok
                   (VStr "uuid-1M-610") (VStr "st-1m") phase1_comment world0
                   _ _ _ _ _ _ (VBool true) eq_refl Hupd eq_refl eq_refl
                   eq_refl eq_refl).
  - now rewrite (update_issue_state_true_whatever_flag Sample.comment_refusing
                   (VStr "uuid-1M-610") (VStr "st-1m") phase1_comment world0
                   _ _ _ _ _ _ (VBool false) eq_refl Hupd eq_refl eq_refl
                   eq_refl eq_refl).
Defined.

(** X5. When the network call of the state mutation fails, with no response
    or with a body that is not JSON, [update_issue_state] raises the
    transport exception; it does not return [False], and no comment is
    sent. *)
Theorem update_issue_state_transport_failure :
  forall api issue_id state_id comment_text w e,
    transport_exn (api (posts w) (state_payload issue_id state_id)) = Some e ->
    update_issue_state api issue_id state_id comment_text w
    = (Raise e, log w [Post (state_payload issue_id state_id)]).
Proof.
  intros api issue_id state_id comment_text w e H.
  unfold update_issue_state, requests_post. unfold_monad.
  destruct (api (posts w) (state_payload issue_id state_id)) as [|[data|]];
    simpl in H; try discriminate; injection H as <-;
    normalise_log; reflexivity.
Qed.

Lemma update_issue_state_transport_failure_witness :
  fst (update_issue_state Sample.update_not_json (VStr "uuid-1M-610")
         (VStr "st-1m") phase1_comment world0) = Raise JSONDecodeError.
Proof.
  now rewrite (update_issue_state_transport_failure Sample.update_not_json
                 (VStr "uuid-1M-610") (VStr "st-1m") phase1_comment world0
                 JSONDecodeError eq_refl).
Defined.

(** X6. After a state mutation that went through, a network failure of the
    comment call makes [update_issue_state] raise the transport exception
    instead of returning [True]: the state has been changed and said so on
    the console, and the caller gets no verdict. *)
Theorem update_issue_state_comment_transport_failure :
  forall api issue_id state_id comment_text w data identifier state_name e,
    api (posts w) (state_payload issue_id state_id) = Response (Some data) ->
    updated data identifier state_name ->
    transport_exn (api (posts w ++ [state_payload issue_id state_id])
                     (comment_payload issue_id comment_text)) = Some e ->
    update_issue_state api issue_id state_id comment_text w
    = (Raise e,
       log w [Post (state_payload issue_id state_id);
              Print [Lit "✅ Updated "; Fmt identifier; Lit " to ";
                     Fmt state_name];
              Post (comment_payload issue_id comment_text)]).
Proof.
  intros api issue_id state_id comment_text w data identifier state_name e Hapi
    (kv & d & iu & success & issue & st & -> & Herr & Hd & Hiu
     & Hs & Ht & Hissue & Hident & Hst & Hname) Hc.
  unfold update_issue_state, requests_post. unfold_monad.
  rewrite Hapi. simpl. rewrite Herr, Hd, Hiu, Hs, Ht, Hissue, Hident, Hst, Hname.
  normalise_log. rewrite posts_log. simpl posts_of.
  destruct (api (posts w ++ [state_payload issue_id state_id])
              (comment_payload issue_id comment_text)) as [|[cdata|]];
    simpl in Hc; try discriminate; injection Hc as <-;
    normalise_log; reflexivity.
Qed.

Lemma update_issue_state_comment_transport_failure_witness :
  fst (update_issue_state Sample.comment_down (VStr "uuid-1M-610") (VStr "st-1m")
         phase1_comment world0) = Raise RequestException.
Proof.
  assert (Hupd : updated Sample.update_ok (VStr "1M-610") (VStr "Canceled")).
  { unfold updated. do 6 eexists. repeat split; reflexivity. }
  now rewrite (update_issue_state_comment_transport_failure Sample.comment_down
                 (VStr "uuid-1M-610") (VStr "st-1m") phase1_comment world0
                 _ _ _ RequestException eq_refl Hupd eq_refl).
Defined.

(** ** Further properties of the State Resolver *)

(** X7. The response of the state lookup is not tested for [errors]: a
    response object without a [data] key, such as an error list, makes
    [get_canceled_state_id] raise [KeyError('data')], and [main] ends in
    that exception before any ticket is taken up. *)
Theorem get_canceled_state_id_without_data :
  forall api kv,
    api [] states_payload = Response (Some (VDict kv)) ->
    lookup "data" kv = None ->
    get_canceled_state_id api started
    = (Raise (KeyError "data"), log started [Post states_payload]) /\
    main api world0
    = (Raise (KeyError "data"), log started [Post states_payload]).
Proof.
  intros api kv Hapi Hdata.
  assert (H : get_canceled_state_id api started
              = (Raise (KeyError "data"), log started [Post states_payload])).
  { unfold get_canceled_state_id, requests_post. unfold_monad.
    change (posts started) with (@nil value). rewrite Hapi. simpl.
    rewrite Hdata. normalise_log. reflexivity. }
  split; [exact H|]. now apply main_unresolved.
Qed.

Lemma get_canceled_state_id_without_data_witness :
  fst (main Sample.lookup_failing world0) = Raise (KeyError "data") /\
  tickets_queried (snd (main Sample.lookup_failing world0)) = [].
Proof.
  destruct (get_canceled_state_id_without_data Sample.lookup_failing _
              eq_refl eq_refl) as [_ H].
  rewrite H. split; reflexivity.
Defined.

(** X8. A listed state whose team is null (or any value that is no object)
    and that comes before the first state of team "1M" makes the lookup
    raise [TypeError]: the states after it are not looked at, also when one
    of them belongs to the team. *)
Theorem get_canceled_state_id_teamless_state :
  forall api w data pre state post team,
    api (posts w) states_payload = Response (Some data) ->
    lists_states data (pre ++ state :: post) ->
    Forall well_formed_state pre ->
    Forall (fun s => of_team "1M" s = false) pre ->
    getitem state "team" = Ok team ->
    (forall kv, team <> VDict kv) ->
    get_canceled_state_id api w
    = (Raise TypeError, log w [Post states_payload]).
Proof.
  intros api w data pre state post team Hapi Hlist Hwf Hpre Hteam Hnodict.
  rewrite (get_canceled_state_id_nodes api w data _ Hapi Hlist).
  clear Hapi Hlist. generalize (log w [Post states_payload]). intros w1.
  induction pre as [|s pre IH]; simpl app.
  - simpl. unfold_monad. rewrite Hteam.
    destruct team; try reflexivity. exfalso. now apply (Hnodict kv).
  - inversion Hwf; subst. inversion Hpre; subst.
    rewrite find_canceled_state_skip by assumption. now apply IH.
Qed.

Lemma get_canceled_state_id_teamless_state_witness :
  fst (get_canceled_state_id Sample.teamless_state world0) = Raise TypeError.
Proof.
  rewrite (get_canceled_state_id_teamless_state Sample.teamless_state world0 _
             [Sample.state_node "st-ops" "OPS"]
             (VDict [("id", VStr "st-orphan"); ("name", VStr "Canceled");
                     ("team", VNone)])
             [Sample.state_node "st-1m" "1M"] VNone eq_refl).
  - reflexivity.
  - do 2 eexists. repeat split; reflexivity.
  - repeat constructor; eexists; reflexivity.
  - repeat constructor.
  - reflexivity.
  - discriminate.
Defined.

(** ** What a computation sends *)

Lemma sends_only_refl P w : sends_only P w w.
Proof. exists []. split; [now rewrite app_nil_r|constructor]. Qed.

Lemma sends_only_trans P w1 w2 w3 :
  sends_only P w1 w2 -> sends_only P w2 w3 -> sends_only P w1 w3.
Proof.
  intros (evs1 & T1 & F1) (evs2 & T2 & F2). exists (evs1 ++ evs2). split.
  - now rewrite T2, T1, app_assoc.
  - rewrite posts_of_app. apply Forall_app. now split.
Qed.

Lemma sends_only_posts P w w' :
  sends_only P w w' -> Forall P (posts w) -> Forall P (posts w').
Proof.
  intros (evs & T & F) H. unfold posts. rewrite T, posts_of_app.
  apply Forall_app. now split.
Qed.

Lemma only_sends_ret P {A} (a : A) : only_sends P (ret a).
Proof. intros w r w' E. injection E as <- <-. apply sends_only_refl. Qed.

Lemma only_sends_raise P {A} e : only_sends P (@raise A e).
Proof. intros w r w' E. injection E as <- <-. apply sends_only_refl. Qed.

Lemma only_sends_lift P {A} (x : result A) : only_sends P (lift x).
Proof. intros w r w' E. injection E as <- <-. apply sends_only_refl. Qed.

Lemma only_sends_print P line : only_sends P (print line).
Proof.
  intros w r w' E. injection E as <- <-. exists [Print line].
  split; [reflexivity|constructor].
Qed.

Lemma only_sends_sleep P seconds : only_sends P (sleep seconds).
Proof.
  intros w r w' E. injection E as <- <-. exists [Sleep seconds].
  split; [reflexivity|constructor].
Qed.

Lemma only_sends_init_batch P : only_sends P init_batch.
Proof.
  intros w r w' E. injection E as <- <-. exists [].
  split; [simpl; now rewrite app_nil_r|constructor].
Qed.

Lemma only_sends_update_batch P f : only_sends P (update_batch f).
Proof.
  intros w r w' E. unfold update_batch in E.
  destruct (locals w); injection E as <- <-.
  - exists []. split; [simpl; now rewrite app_nil_r|constructor].
  - apply sends_only_refl.
Qed.

Lemma only_sends_read_batch P : only_sends P read_batch.
Proof.
  intros w r w' E. unfold read_batch in E.
  destruct (locals w); injection E as <- <-; apply sends_only_refl.
Qed.

Lemma only_sends_bind P {A B} (m : M A) (k : A -> M B) :
  only_sends P m -> (forall a, only_sends P (k a)) -> only_sends P (bind m k).
Proof.
  intros Hm Hk w r w' E. unfold bind in E.
  destruct (m w) as [[a|e] w1] eqn:E1.
  - apply sends_only_trans with w1; [exact (Hm _ _ _ E1)|exact (Hk _ _ _ _ E)].
  - injection E as <- <-. exact (Hm _ _ _ E1).
Qed.

Lemma only_sends_for_each P {A} (xs : list A) body :
  (forall x, only_sends P (body x)) -> only_sends P (for_each xs body).
Proof.
  intros Hbody. induction xs as [|x xs IH]; simpl.
  - apply only_sends_ret.
  - apply only_sends_bind; [apply Hbody|intros _; exact IH].
Qed.

Lemma only_sends_requests_post P api payload :
  P payload -> only_sends P (requests_post api payload).
Proof.
  intros HP w r w' E. unfold requests_post in E.
  exists [Post payload].
  destruct (api (posts w) payload); injection E as <- <-;
    (split; [reflexivity|repeat constructor; exact HP]).
Qed.

Lemma only_sends_response_json P response :
  only_sends P (response_json response).
Proof.
  destruct response; [apply only_sends_ret|apply only_sends_raise].
Qed.

Ltac only_sends_step :=
  first
    [ apply only_sends_bind; [|intros ?]
    | apply only_sends_ret
    | apply only_sends_raise
    | apply only_sends_lift
    | apply only_sends_print
    | apply only_sends_sleep
    | apply only_sends_init_batch
    | apply only_sends_update_batch
    | apply only_sends_read_batch
    | apply only_sends_response_json
    | match goal with
      | |- only_sends _ (if ?c then _ else _) => destruct c
      | |- only_sends _ (match ?x with _ => _ end) => destruct x
      end ].

Lemma only_sends_find_canceled_state P nodes :
  only_sends P (find_canceled_state nodes).
Proof.
  induction nodes as [|state rest IH]; simpl.
  - apply only_sends_raise.
  - repeat only_sends_step. exact IH.
Qed.

Lemma only_sends_get_canceled_state_id P api :
  P states_payload -> only_sends P (get_canceled_state_id api).
Proof.
  intros HP. unfold get_canceled_state_id.
  apply only_sends_bind; [now apply only_sends_requests_post|intros ?].
  repeat only_sends_step. apply only_sends_find_canceled_state.
Qed.

Lemma only_sends_get_issue_id P api ticket :
  P (issue_payload ticket) -> only_sends P (get_issue_id api ticket).
Proof.
  intros HP. unfold get_issue_id.
  apply only_sends_bind; [now apply only_sends_requests_post|intros ?].
  repeat only_sends_step.
Qed.

Lemma only_sends_update_issue_state P api issue_id state_id comment_text :
  P (state_payload issue_id state_id) ->
  P (comment_payload issue_id comment_text) ->
  only_sends P (update_issue_state api issue_id state_id comment_text).
Proof.
  intros HPs HPc. unfold update_issue_state.
  apply only_sends_bind; [now apply only_sends_requests_post|intros ?].
  repeat first [ now apply only_sends_requests_post | only_sends_step ].
Qed.

Lemma only_sends_banner P title : only_sends P (banner title).
Proof. unfold banner. repeat only_sends_step. Qed.

Lemma only_sends_summary P : only_sends P summary.
Proof.
  unfold summary.
  repeat first [ apply only_sends_banner | only_sends_step ].
  apply only_sends_for_each. intros x. apply only_sends_print.
Qed.

Lemma only_sends_process_ticket P api state_id comment_text ticket :
  P (issue_payload ticket) ->
  (forall issue_id, P (state_payload issue_id state_id)) ->
  (forall issue_id, P (comment_payload issue_id comment_text)) ->
  only_sends P (process_ticket api state_id comment_text ticket).
Proof.
  intros HPi HPs HPc. unfold process_ticket.
  repeat first [ now apply only_sends_get_issue_id
               | now apply only_sends_update_issue_state
               | only_sends_step ].
Qed.

(** ** Further properties of the loop body *)

(** X9. What the loop tests is the truth value of the id: a ticket whose id
    comes back falsy without being null (an empty string, a zero) is
    recorded as failed like an unresolved one, and no mutation is sent for
    it. *)
Theorem falsy_issue_id_is_failure :
  forall api canceled_state_id comment_text ticket tr b issue_id w1,
    get_issue_id api ticket (emit (processing ticket) (mkWorld tr (Some b)))
    = (Ok issue_id, w1) ->
    truthy issue_id = false ->
    exists evs,
      process_ticket api canceled_state_id comment_text ticket (mkWorld tr (Some b))
      = (Ok tt, mkWorld (tr ++ evs) (Some (record_failure ticket b))) /\
      posts_of evs = [issue_payload ticket].
Proof.
  intros api sid c t tr b issue_id w1 Hget Hfalsy.
  exact (process_ticket_unresolved api sid c t tr b issue_id w1 Hget Hfalsy).
Qed.

Lemma falsy_issue_id_is_failure_witness :
  exists w,
    process_ticket Sample.empty_id (VStr "st-1m") phase1_comment "1M-610"
      (mkWorld [] (Some batch0)) = (Ok tt, w) /\
    locals w = Some (mkBatch 0 1 ["1M-610"]) /\
    posts w = [issue_payload "1M-610"].
Proof.
  destruct (falsy_issue_id_is_failure Sample.empty_id (VStr "st-1m")
              phase1_comment "1M-610" [] batch0 (VStr "") _ eq_refl eq_refl)
    as (evs & Hturn & Hposts).
  eexists. split; [exact Hturn|]. split; [reflexivity|].
  unfold posts. simpl. exact Hposts.
Defined.

(** X10. For a ticket that resolves to a truthy id, the verdict of the turn
    is what [update_issue_state] returns: [True] adds one to the success
    count and leaves the failed list alone, [False] adds one to the failure
    count and appends the ticket; the turn then sleeps and ends normally. *)
Theorem turn_verdict_is_update_result :
  forall api canceled_state_id comment_text ticket tr b issue_id w1 updated w2,
    get_issue_id api ticket (emit (processing ticket) (mkWorld tr (Some b)))
    = (Ok issue_id, w1) ->
    truthy issue_id = true ->
    update_issue_state api issue_id canceled_state_id comment_text w1
    = (Ok updated, w2) ->
    process_ticket api canceled_state_id comment_text ticket (mkWorld tr (Some b))
    = (Ok tt,
       mkWorld (trace w2 ++ [Sleep (1 # 2)%Q])
         (Some (if updated then count_success b else record_failure ticket b))).
Proof.
  intros api sid c t tr b issue_id w1 updated w2 Hget Htruthy Hupd.
  destruct (get_issue_id_frame api t (emit (processing t) (mkWorld tr (Some b))))
    as (evs1 & E1 & _).
  rewrite Hget in E1. cbn [snd] in E1. subst w1.
  destruct (update_issue_state_frame api issue_id sid c
              (log (emit (processing t) (mkWorld tr (Some b))) evs1))
    as (evs2 & E2 & _).
  rewrite Hupd in E2. cbn [snd] in E2. subst w2.
  unfold process_ticket. rewrite bind_print. cbn [trace locals].
  unfold bind at 1. unfold processing, emit in Hget, Hupd.
  cbn [trace locals] in Hget, Hupd.
  rewrite Hget. unfold bind at 1. rewrite Htruthy. unfold bind at 1.
  rewrite Hupd.
  destruct updated; unfold update_batch, sleep, emit, log, processing;
    cbn [trace locals]; reflexivity.
Qed.

Lemma turn_verdict_is_update_result_witness :
  locals (snd (process_ticket Sample.all_ok (VStr "st-1m") phase1_comment
                 "1M-610" (mkWorld [] (Some batch0))))
  = Some (mkBatch 1 0 []) /\
  locals (snd (process_ticket Sample.update_refusing (VStr "st-1m")
                 phase1_comment "1M-610" (mkWorld [] (Some batch0))))
  = Some (mkBatch 0 1 ["1M-610"]).
Proof.
  split.
  - now rewrite (turn_verdict_is_update_result Sample.all_ok (VStr "st-1m")
                   phase1_comment "1M-610" [] batch0 (VStr "uuid-1M-610") _
                   true _ eq_refl eq_refl eq_refl).
  - now rewrite (turn_verdict_is_update_result Sample.update_refusing
                   (VStr "st-1m") phase1_comment "1M-610" [] batch0
                   (VStr "uuid-1M-610") _ false _ eq_refl eq_refl eq_refl).
Defined.

(** X11. Pacing: a turn that ends normally has slept once, for half a
    second, as the last thing it did, whatever the verdict; a turn that
    raises has not slept and has left the accumulators as they were. *)
Theorem turn_ends_with_its_sleep :
  forall api canceled_state_id comment_text ticket tr b r w',
    process_ticket api canceled_state_id comment_text ticket (mkWorld tr (Some b))
    = (r, w') ->
    match r with
    | Ok _ =>
        exists evs,
          trace w' = tr ++ evs ++ [Sleep (1 # 2)%Q] /\ sleeps_of evs = 0
    | Raise _ =>
        exists evs,
          trace w' = tr ++ evs /\ sleeps_of evs = 0 /\ locals w' = Some b
    end.
Proof.
  intros api sid c t tr b r w'.
  unfold process_ticket. rewrite bind_print. cbn [trace locals].
  unfold bind at 1.
  set (w0 := mkWorld _ _).
  destruct (get_issue_id_frame api t w0) as (evs1 & E1 & _ & S1).
  destruct (get_issue_id api t w0) as [[issue_id|e] w1]; cbn [snd] in E1;
    subst w1.
  2:{ intros E; injection E as <- <-. exists (processing t :: evs1).
      unfold log, w0. cbn [trace locals]. rewrite <- app_assoc.
      repeat split. simpl. exact S1. }
  unfold bind at 1. destruct (truthy issue_id).
  - unfold bind at 1.
    destruct (update_issue_state_frame api issue_id sid c (log w0 evs1))
      as (evs2 & E2 & _ & S2).
    destruct (update_issue_state api issue_id sid c (log w0 evs1))
      as [[updated|e] w2]; cbn [snd] in E2; subst w2.
    + assert (Hs : sleeps_of (processing t :: evs1 ++ evs2) = 0).
      { simpl. now rewrite sleeps_of_app, S1, S2. }
      destruct updated; intros E; injection E as <- <-;
        exists (processing t :: evs1 ++ evs2);
        (split; [|exact Hs]);
        unfold emit, log, w0, processing; cbn [trace locals app];
        rewrite <- ?app_assoc; cbn [app]; rewrite <- ?app_assoc; reflexivity.
    + intros E; injection E as <- <-. exists (processing t :: evs1 ++ evs2).
      unfold log, w0. cbn [trace locals]. rewrite <- !app_assoc.
      repeat split. simpl. now rewrite sleeps_of_app, S1, S2.
  - intros E; injection E as <- <-. exists (processing t :: evs1).
    split; [|simpl; exact S1].
    unfold emit, log, w0, processing. cbn [trace locals app].
    rewrite <- ?app_assoc. cbn [app]. rewrite <- ?app_assoc. reflexivity.
Qed.

Lemma turn_ends_with_its_sleep_witness :
  (exists evs,
     trace (snd (process_ticket Sample.no_such_ticket (VStr "st-1m")
                   phase1_comment "1M-610" (mkWorld [] (Some batch0))))
     = [] ++ evs ++ [Sleep (1 # 2)%Q] /\ sleeps_of evs = 0) /\
  (exists evs,
     trace (snd (process_ticket Sample.down_after_lookup (VStr "st-1m")
                   phase1_comment "1M-610" (mkWorld [] (Some batch0))))
     = [] ++ evs /\ sleeps_of evs = 0 /\
     locals (snd (process_ticket Sample.down_after_lookup (VStr "st-1m")
                    phase1_comment "1M-610" (mkWorld [] (Some batch0))))
     = Some batch0).
Proof.
  split.
  - exact (turn_ends_with_its_sleep Sample.no_such_ticket (VStr "st-1m")
             phase1_comment "1M-610" [] batch0 (Ok tt) _ eq_refl).
  - exact (turn_ends_with_its_sleep Sample.down_after_lookup (VStr "st-1m")
             phase1_comment "1M-610" [] batch0 (Raise RequestException) _
             eq_refl).
Defined.

(** X12. The requests of the three functions, whatever the API answers and
    whether they return or raise: [get_canceled_state_id] sends its query
    and nothing else, [get_issue_id] sends the ticket's query and nothing
    else, [update_issue_state] sends the state mutation, alone or followed
    by the one comment mutation; none of them sleeps or touches the
    accumulators. *)
Theorem request_footprint :
  forall api ticket issue_id state_id comment_text w,
    (posts (snd (get_canceled_state_id api w)) = posts w ++ [states_payload] /\
     locals (snd (get_canceled_state_id api w)) = locals w /\
     tickets_processed (snd (get_canceled_state_id api w)) = tickets_processed w) /\
    (posts (snd (get_issue_id api ticket w)) = posts w ++ [issue_payload ticket] /\
     locals (snd (get_issue_id api ticket w)) = locals w /\
     tickets_processed (snd (get_issue_id api ticket w)) = tickets_processed w) /\
    ((posts (snd (update_issue_state api issue_id state_id comment_text w))
      = posts w ++ [state_payload issue_id state_id] \/
      posts (snd (update_issue_state api issue_id state_id comment_text w))
      = posts w ++ [state_payload issue_id state_id;
                    comment_payload issue_id comment_text]) /\
     locals (snd (update_issue_state api issue_id state_id comment_text w))
     = locals w /\
     tickets_processed (snd (update_issue_state api issue_id state_id comment_text w))
     = tickets_processed w).
Proof.
  intros api ticket issue_id state_id comment_text w.
  destruct (get_canceled_state_id_frame api w) as (evs0 & -> & P0 & S0).
  destruct (get_issue_id_frame api ticket w) as (evs1 & -> & P1 & S1).
  destruct (update_issue_state_frame api issue_id state_id comment_text w)
    as (evs2 & -> & P2 & S2).
  rewrite !posts_log, !tickets_processed_log, P0, P1, S0, S1, S2, !Nat.add_0_r.
  repeat split. destruct P2 as [-> | ->]; [now left|now right].
Qed.

(** ** Further properties of a run *)

Lemma main_after_lookup api state_id w1 :
  get_canceled_state_id api started = (Ok state_id, w1) ->
  main api world0
  = (banner "Phase 1: Archiving WORKER TRACE TEST tickets (14 tickets)" ;;;
     for_each WORKER_TRACE_TICKETS (process_ticket api state_id phase1_comment) ;;;
     banner "Phase 2: Closing duplicate Track: tickets (6 tickets)" ;;;
     for_each TRACK_TICKETS (process_ticket api state_id phase2_comment) ;;;
     summary) (mkWorld (trace w1) (Some batch0)).
Proof.
  intros H. unfold main. rewrite !bind_print. cbn [trace locals world0 app].
  fold started. unfold bind at 1. rewrite H. reflexivity.
Qed.

Lemma bind_Ok {A B} (m : M A) (k : A -> M B) w b w' :
  bind m k w = (Ok b, w') ->
  exists a w1, m w = (Ok a, w1) /\ k a w1 = (Ok b, w').
Proof.
  unfold bind. destruct (m w) as [[a|e] w1]; [|discriminate].
  intros H. now exists a, w1.
Qed.

Lemma summary_prints tr b :
  summary (mkWorld tr (Some b))
  = (Ok tt, mkWorld (tr ++ summary_lines b) (Some b)).
Proof.
  unfold summary, summary_lines. rewrite bind_banner. cbn [trace locals].
  unfold bind at 1. unfold read_batch at 1. cbn [trace locals].
  rewrite !bind_print. cbn [trace locals].
  unfold bind at 1.
  destruct (failed_tickets b) as [|t ts] eqn:Hf.
  - unfold ret, print, emit. cbn [trace locals]. rewrite <- !app_assoc.
    reflexivity.
  - rewrite bind_print, for_each_print. unfold log, print, emit.
    cbn [trace locals]. rewrite <- !app_assoc. reflexivity.
Qed.

Lemma summary_returns w w' :
  summary w = (Ok tt, w') ->
  exists b,
    locals w = Some b /\ w' = mkWorld (trace w ++ summary_lines b) (Some b).
Proof.
  destruct w as [tr [b|]].
  - rewrite summary_prints. intros E; injection E as <-. now exists b.
  - unfold summary. rewrite bind_banner. cbn [trace locals].
    unfold bind at 1. unfold read_batch at 1. cbn [trace locals]. discriminate.
Qed.

Lemma tally_failed_of ts : forall vs b,
  failed_tickets (tally ts vs b) = failed_tickets b ++ failed_of ts vs /\
  success_count (tally ts vs b) = success_count b + succeeded_of ts vs.
Proof.
  induction ts as [|t ts IH]; intros vs b; simpl.
  - rewrite app_nil_r. split; [reflexivity|lia].
  - destruct vs as [|v vs]; simpl.
    + rewrite app_nil_r. split; [reflexivity|lia].
    + destruct (IH vs (if v then count_success b else record_failure t b))
        as [-> ->].
      destruct v; simpl; split; try rewrite <- app_assoc; try reflexivity; lia.
Qed.

Lemma failed_of_in ts : forall vs t, In t (failed_of ts vs) -> In t ts.
Proof.
  induction ts as [|t' ts IH]; intros [|v vs] t; simpl; try tauto.
  destruct v; simpl.
  - intros H. right. exact (IH _ _ H).
  - intros [->|H]; [now left|right; exact (IH _ _ H)].
Qed.

Lemma failed_of_NoDup ts : forall vs, NoDup ts -> NoDup (failed_of ts vs).
Proof.
  induction ts as [|t ts IH]; intros [|v vs] H; simpl; try constructor.
  - inversion H; subst. destruct v.
    + now apply IH.
    + constructor; [|now apply IH].
      intros Hin. apply failed_of_in in Hin. contradiction.
Qed.

Lemma groups_length ts groups :
  Forall2 ticket_posts ts groups -> length (concat groups) <= 3 * length ts.
Proof.
  induction 1 as [|t g ts groups Hg _ IH]; simpl; [lia|].
  rewrite length_app. destruct Hg; simpl; lia.
Qed.

Lemma for_each_unresolved api state_id comment_text ts :
  (forall history ticket,
     exists kv errors,
       api history (issue_payload ticket) = Response (Some (VDict kv)) /\
       lookup "errors" kv = Some errors) ->
  forall tr b,
    exists evs,
      for_each ts (process_ticket api state_id comment_text) (mkWorld tr (Some b))
      = (Ok tt,
         mkWorld (tr ++ evs)
           (Some (mkBatch (success_count b) (failed_count b + length ts)
                    (failed_tickets b ++ ts)))) /\
      posts_of evs = map issue_payload ts.
Proof.
  intros Hapi. induction ts as [|t ts IH]; intros tr b.
  - exists []. simpl. rewrite !app_nil_r, Nat.add_0_r. now destruct b.
  - destruct (Hapi (posts (emit (processing t) (mkWorld tr (Some b)))) t)
      as (kv & errors & Hreply & Herr).
    pose proof (get_issue_id_on_errors api t _ kv errors Hreply Herr) as Hget.
    destruct (process_ticket_unresolved api state_id comment_text t tr b VNone
                _ Hget eq_refl) as (evs1 & Hturn & P1).
    destruct (IH (tr ++ evs1) (record_failure t b)) as (evs2 & Hloop & P2).
    exists (evs1 ++ evs2). cbn [for_each]. unfold bind at 1.
    rewrite Hturn, Hloop. simpl. rewrite posts_of_app, P1, P2.
    rewrite <- !app_assoc, <- Nat.add_assoc. split; reflexivity.
Qed.

(** X13. Every state mutation of a run sets the state whose id the lookup
    returned, and every comment mutation carries one of the two comment
    texts of the script. *)
Theorem run_uses_looked_up_state :
  forall api state_id w1,
    get_canceled_state_id api started = (Ok state_id, w1) ->
    Forall (run_request state_id) (posts (snd (main api world0))).
Proof.
  intros api state_id w1 Hlookup.
  assert (Hquery : run_request state_id states_payload).
  { split; intros H; discriminate H. }
  assert (Hissue : forall t, run_request state_id (issue_payload t)).
  { intros t. split; intros H; discriminate H. }
  assert (Hstate : forall i, run_request state_id (state_payload i state_id)).
  { intros i. split; [intros _; reflexivity|intros H; discriminate H]. }
  assert (Hcomment : forall c i,
            In c [phase1_comment; phase2_comment] ->
            run_request state_id (comment_payload i c)).
  { intros c i Hc. split; [intros H; discriminate H|].
    intros _. exists c. split; [exact Hc|reflexivity]. }
  assert (Hturn : forall c t,
            In c [phase1_comment; phase2_comment] ->
            only_sends (run_request state_id) (process_ticket api state_id c t)).
  { intros c t Hc. apply only_sends_process_ticket; auto. }
  rewrite (main_after_lookup api state_id w1 Hlookup).
  destruct ((banner _ ;;; _) (mkWorld (trace w1) (Some batch0))) as [r w] eqn:E.
  cbn [snd].
  assert (Htail : sends_only (run_request state_id)
                    (mkWorld (trace w1) (Some batch0)) w).
  { revert E. generalize (mkWorld (trace w1) (Some batch0)). intros w0 E.
    revert w0 r w E. change (only_sends (run_request state_id)
      (banner "Phase 1: Archiving WORKER TRACE TEST tickets (14 tickets)" ;;;
       for_each WORKER_TRACE_TICKETS (process_ticket api state_id phase1_comment) ;;;
       banner "Phase 2: Closing duplicate Track: tickets (6 tickets)" ;;;
       for_each TRACK_TICKETS (process_ticket api state_id phase2_comment) ;;;
       summary)).
    repeat first
      [ apply only_sends_banner
      | apply only_sends_summary
      | apply only_sends_for_each; intros t; apply Hturn; simpl; tauto
      | apply only_sends_bind; [|intros _] ]. }
  apply (sends_only_posts _ _ _ Htail).
  unfold posts. cbn [trace].
  pose proof (only_sends_get_canceled_state_id (run_request state_id) api
                Hquery _ _ _ Hlookup) as Hsent.
  apply (sends_only_posts _ _ _ Hsent). constructor.
Qed.

Lemma run_uses_looked_up_state_witness :
  Forall (run_request (VStr "st-1m")) (posts (snd (main Sample.all_ok world0))).
Proof.
  exact (run_uses_looked_up_state Sample.all_ok (VStr "st-1m") _ eq_refl).
Defined.

(** X14. The failed list is kept in the order of processing: whenever the
    accumulators exist, the failed list is the list of the tickets of the
    two lists, in their order, whose verdict was a failure, the success
    count is the number of the other verdicts given; so a ticket is in the
    failed list at most once, and only tickets of the two lists are. *)
Theorem failed_list_in_processing_order :
  forall api b,
    locals (snd (main api world0)) = Some b ->
    exists vs,
      length vs = tickets_processed (snd (main api world0)) /\
      failed_tickets b = failed_of ALL_TICKETS vs /\
      success_count b = succeeded_of ALL_TICKETS vs /\
      NoDup (failed_tickets b) /\
      incl (failed_tickets b) ALL_TICKETS.
Proof.
  intros api b.
  destruct (main api world0) as [r w] eqn:E. cbn [snd].
  apply main_run_shape in E.
  generalize ALL_TICKETS_NoDup. revert E. generalize ALL_TICKETS.
  intros all [e _ Hl _ _ | vs groups Hl _ Hs _] Hnodup Hb.
  - congruence.
  - rewrite Hl in Hb. injection Hb as <-.
    destruct (tally_failed_of all vs batch0) as [Hf Hc].
    simpl in Hf, Hc. exists vs. rewrite Hf, Hc.
    repeat split; try congruence.
    + now apply failed_of_NoDup.
    + intros t. apply failed_of_in.
Qed.

Lemma failed_list_in_processing_order_witness :
  exists vs,
    length vs = 20 /\
    ALL_TICKETS = failed_of ALL_TICKETS vs /\
    0 = succeeded_of ALL_TICKETS vs.
Proof.
  assert (H : locals (snd (main Sample.no_such_ticket world0))
              = Some (mkBatch 0 20 ALL_TICKETS))
    by (vm_compute; reflexivity).
  destruct (failed_list_in_processing_order Sample.no_such_ticket _ H)
    as (vs & Hlen & Hf & Hc & _).
  exists vs. split; [|split; assumption].
  rewrite Hlen. vm_compute. reflexivity.
Defined.

(** X15. The budget of a run, whatever the API answers: the state lookup is
    its first request, at most three requests follow per ticket (61 in
    all for the 20 tickets), and it sleeps at most once per ticket. *)
Theorem run_request_budget :
  forall api,
    hd_error (posts (snd (main api world0))) = Some states_payload /\
    length (posts (snd (main api world0))) <= 1 + 3 * length ALL_TICKETS /\
    tickets_processed (snd (main api world0)) <= length ALL_TICKETS.
Proof.
  intros api.
  destruct (main api world0) as [r w] eqn:E. cbn [snd].
  apply main_run_shape in E. revert E. generalize ALL_TICKETS.
  intros all [e _ _ Hp Hs | vs groups _ Hp Hs Hr].
  - rewrite Hp, Hs. simpl. repeat split; lia.
  - rewrite Hp, Hs. split; [reflexivity|]. simpl length.
    destruct r; destruct Hr as [Hlen HF]; apply groups_length in HF.
    + split; lia.
    + rewrite length_firstn in HF. split; lia.
Qed.

(** X16. When the state lookup succeeds and the API answers every ticket
    query with an error list, the run completes: the 20 tickets are all
    recorded as failed, in the order of the two lists, nothing is counted
    as success, and no request but the lookup and the 20 ticket queries is
    sent. *)
Theorem unresolvable_tickets_all_fail :
  forall api state_id w1,
    get_canceled_state_id api started = (Ok state_id, w1) ->
    (forall history ticket,
       exists kv errors,
         api history (issue_payload ticket) = Response (Some (VDict kv)) /\
         lookup "errors" kv = Some errors) ->
    fst (main api world0) = Ok tt /\
    locals (snd (main api world0))
    = Some (mkBatch 0 (length ALL_TICKETS) ALL_TICKETS) /\
    posts (snd (main api world0))
    = states_payload :: map issue_payload ALL_TICKETS.
Proof.
  intros api state_id w1 Hlookup Hapi.
  rewrite (main_after_lookup api state_id w1 Hlookup).
  destruct (get_canceled_state_id_frame api started) as (evs0 & E0 & P0 & _).
  rewrite Hlookup in E0. cbn [snd] in E0. subst w1.
  unfold ALL_TICKETS. generalize WORKER_TRACE_TICKETS, TRACK_TICKETS.
  intros ts1 ts2.
  assert (Hs : forall b, posts_of (summary_lines b) = []).
  { intros b. unfold summary_lines. rewrite !posts_of_app. simpl.
    destruct (failed_tickets b); simpl; [reflexivity|].
    now rewrite (posts_of_prints (fun x => [Lit "  - "; Fmt (VStr x)])). }
  destruct ((banner _ ;;; _) _) as [r w] eqn:E. cbn [fst snd]. revert E.
  rewrite bind_banner. cbn [trace locals]. unfold bind at 1.
  match goal with
  | |- context [for_each ts1 _ (mkWorld ?tr (Some ?b))] =>
      destruct (for_each_unresolved api state_id phase1_comment ts1 Hapi tr b)
        as (evs1 & -> & P1)
  end.
  rewrite bind_banner. cbn [trace locals]. unfold bind at 1.
  match goal with
  | |- context [for_each ts2 _ (mkWorld ?tr (Some ?b))] =>
      destruct (for_each_unresolved api state_id phase2_comment ts2 Hapi tr b)
        as (evs2 & -> & P2)
  end.
  rewrite summary_prints. intros E; injection E as <- <-.
  cbn [locals success_count failed_count failed_tickets batch0].
  split; [reflexivity|]. split.
  - simpl. now rewrite length_app.
  - unfold posts, started, log. cbn [trace posts_of].
    rewrite !posts_of_app, P0, P1, P2, Hs, map_app. cbn [posts_of app].
    now rewrite !app_nil_r.
Qed.

Lemma unresolvable_tickets_all_fail_witness :
  fst (main Sample.no_such_ticket world0) = Ok tt /\
  locals (snd (main Sample.no_such_ticket world0))
  = Some (mkBatch 0 (length ALL_TICKETS) ALL_TICKETS).
Proof.
  destruct (unresolvable_tickets_all_fail Sample.no_such_ticket (VStr "st-1m") _
              eq_refl) as (Hr & Hl & _).
  - intros history ticket. do 2 eexists. split; reflexivity.
  - split; assumption.
Defined.

(** X17. When [main] returns, the last lines on the console are the summary
    of the final accumulators: the heading, the two counts and, when the
    failed list is not empty, "Failed tickets:" and one line for each failed
    ticket in the order of the list, then the closing line. *)
Theorem main_ends_with_summary :
  forall api,
    fst (main api world0) = Ok tt ->
    exists tr b,
      locals (snd (main api world0)) = Some b /\
      trace (snd (main api world0)) = tr ++ summary_lines b.
Proof.
  intros api. destruct (main api world0) as [r w] eqn:E. cbn [fst snd].
  intros ->. unfold main in E.
  do 9 (apply bind_Ok in E as (? & ? & _ & E)).
  apply summary_returns in E as (b & Hb & ->).
  eexists _, b. split; reflexivity.
Qed.

Lemma main_ends_with_summary_witness :
  exists tr,
    trace (snd (main Sample.all_ok world0))
    = tr ++ summary_lines (mkBatch 20 0 []).
Proof.
  destruct (main_ends_with_summary Sample.all_ok) as (tr & b & Hb & Ht).
  - vm_compute. reflexivity.
  - exists tr. rewrite Ht. f_equal. f_equal.
    assert (H : locals (snd (main Sample.all_ok world0))
                = Some (mkBatch 20 0 []))
      by (vm_compute; reflexivity).
    congruence.
Defined.

(** ** Responses of an unexpected shape *)

(** X18. When the state mutation reports success but its response lacks the
    issue's identifier or state name (as with [issue: null]),
    [update_issue_state] raises the exception of that subscript before
    anything is printed and before the comment is sent: the state has been
    changed, and the caller gets neither [True] nor [False]. *)
Theorem update_issue_state_reads_issue_before_comment :
  forall api issue_id state_id comment_text w kv d iu success e,
    api (posts w) (state_payload issue_id state_id) = Response (Some (VDict kv)) ->
    lookup "errors" kv = None ->
    lookup "data" kv = Some d ->
    getitem d "issueUpdate" = Ok iu ->
    getitem iu "success" = Ok success ->
    truthy success = true ->
    updated_fields iu = Raise e ->
    update_issue_state api issue_id state_id comment_text w
    = (Raise e, log w [Post (state_payload issue_id state_id)]).
Proof.
  intros api issue_id state_id comment_text w kv d iu success e
    Hapi Herr Hd Hiu Hs Ht Hf.
  unfold update_issue_state, requests_post. unfold_monad.
  rewrite Hapi. simpl. rewrite Herr, Hd, Hiu, Hs, Ht.
  unfold updated_fields in Hf.
  destruct (getitem iu "issue") as [issue|]; [|injection Hf as ->; reflexivity].
  destruct (getitem issue "identifier") as [identifier|];
    [|injection Hf as ->; reflexivity].
  destruct (getitem issue "state") as [st|]; [|injection Hf as ->; reflexivity].
  destruct (getitem st "name") as [name|]; [discriminate|].
  injection Hf as ->. reflexivity.
Qed.

Lemma update_issue_state_reads_issue_before_comment_witness :
  fst (update_issue_state Sample.update_without_issue (VStr "uuid-1M-610")
         (VStr "st-1m") phase1_comment world0) = Raise TypeError.
Proof.
  now rewrite (update_issue_state_reads_issue_before_comment
                 Sample.update_without_issue (VStr "uuid-1M-610") (VStr "st-1m")
                 phase1_comment world0 _ _ _ (VBool true) TypeError
                 eq_refl eq_refl eq_refl eq_refl eq_refl eq_refl eq_refl).
Defined.

(** X19. A body that parses to something that is no JSON object (null, a
    number, a string, an array) never gives a result: each of the three
    functions raises [TypeError] on it, at the [in] test or at the first
    subscript, having sent its one request and printed nothing. *)
Theorem non_object_body_raises_type_error :
  forall api ticket issue_id state_id comment_text w data,
    not_an_object data ->
    (api (posts w) states_payload = Response (Some data) ->
     get_canceled_state_id api w
     = (Raise TypeError, log w [Post states_payload])) /\
    (api (posts w) (issue_payload ticket) = Response (Some data) ->
     get_issue_id api ticket w
     = (Raise TypeError, log w [Post (issue_payload ticket)])) /\
    (api (posts w) (state_payload issue_id state_id) = Response (Some data) ->
     update_issue_state api issue_id state_id comment_text w
     = (Raise TypeError, log w [Post (state_payload issue_id state_id)])).
Proof.
  intros api ticket issue_id state_id comment_text w data Hdata.
  repeat split; intros Hapi.
  - unfold get_canceled_state_id, requests_post. unfold_monad. rewrite Hapi.
    destruct data; try reflexivity. now destruct (Hdata kv).
  - unfold get_issue_id, requests_post. unfold_monad. rewrite Hapi.
    destruct data; simpl; try reflexivity.
    + now destruct (is_substring "errors" s).
    + now destruct (existsb (fun x => eq_str x "errors") l).
    + now destruct (Hdata kv).
  - unfold update_issue_state, requests_post. unfold_monad. rewrite Hapi.
    destruct data; simpl; try reflexivity.
    + now destruct (is_substring "errors" s).
    + now destruct (existsb (fun x => eq_str x "errors") l).
    + now destruct (Hdata kv).
Qed.

Lemma non_object_body_raises_type_error_witness :
  fst (get_canceled_state_id Sample.null_body world0) = Raise TypeError /\
  fst (get_issue_id Sample.null_body "1M-610" world0) = Raise TypeError /\
  fst (update_issue_state Sample.null_body (VStr "uuid-1M-610") (VStr "st-1m")
         phase1_comment world0) = Raise TypeError.
Proof.
  assert (Hnull : not_an_object VNone) by (intros kv; discriminate).
  destruct (non_object_body_raises_type_error Sample.null_body "1M-610"
              (VStr "uuid-1M-610") (VStr "st-1m") phase1_comment world0 VNone
              Hnull) as (H1 & H2 & H3).
  rewrite (H1 eq_refl), (H2 eq_refl), (H3 eq_refl). repeat split.
Defined.

(** ** The accounting of a run *)



